(** * Patent-market frontend: registration, login, admin trade table, trade detail modal

    A shallow embedding of the client-side logic of
    - the registration page ([RegisterPage], src/unnamed/part_000, first document),
    - the login page ([LoginPage], src/src/app/login/page.tsx),
    - the admin trade table ([AdminTradesPage], src/unnamed/part_000, second document),
    - the trade detail modal ([TradeDetailModal], src/src/components/admin/TradeDetailModal.tsx),
    followed by the properties of these definitions.

    Conventions.
    - A JavaScript string is the Rocq [string] holding the bytes of its UTF-8
      encoding (the way Rocq reads a literal such as ["기타"]).  Equality of
      well-formed strings is equality of their encodings, and one well-formed
      string occurs inside another exactly when its encoding occurs inside the
      other's encoding.
    - The numbers of the data model (identifiers, prices, HTTP status codes) are
      integers, modelled as [Z].
    - An optional or nullable field is an [option]; the truthiness tests of the
      source are written out ([JS.truthy], [JS.truthy_opt]).
    - An [async] function is split at its [await]: one definition runs the code
      up to the request, one runs the continuation on the settled promise. *)

From Stdlib Require Import ZArith Bool.
From Stdlib Require OrderedTypeEx.
From stdpp Require Import base list sorting strings pretty.

Open Scope string_scope.
Open Scope Z_scope.

(** ** The host language *)

Module JS.

(** Truthiness of a string: only the empty string is falsy. *)
Definition truthy (s : string) : bool := negb (String.eqb s "").

(** Truthiness of an optional string: [undefined], [null] and [""] are falsy. *)
Definition truthy_opt (o : option string) : bool :=
  match o with
  | Some s => truthy s
  | None => false
  end.

(** [a ?? b]: [b] only when [a] is [undefined] or [null]. *)
Definition nullish {A} (o : option A) (d : A) : A :=
  match o with
  | Some a => a
  | None => d
  end.

(** [a || b] on an optional string: [b] when [a] is falsy. *)
Definition or_else (o : option string) (d : string) : string :=
  match o with
  | Some s => if truthy s then s else d
  | None => d
  end.

(** [String.prototype.includes]: [t] occurs in [s] at some position. *)
Fixpoint includes (s t : string) : bool :=
  String.prefix t s ||
  match s with
  | EmptyString => false
  | String _ s' => includes s' t
  end.

(** [Array.prototype.includes] on an array of strings. *)
Definition Array_includes (l : list string) (x : string) : bool :=
  existsb (String.eqb x) l.

(** [Number.MAX_SAFE_INTEGER], that is 2^53 - 1, and [Number.isSafeInteger]
    on an integer: the integers a number holds exactly. *)
Definition MAX_SAFE_INTEGER : Z := 9007199254740991.

Definition isSafeInteger (n : Z) : bool :=
  (- MAX_SAFE_INTEGER <=? n) && (n <=? MAX_SAFE_INTEGER).

(** [Number.prototype.toString] on a safe integer: its decimal digits, with a
    leading minus sign when negative.  The identifiers and prices of the
    pages are numbers holding integers and are taken in the safe range;
    beyond it a number no longer holds every integer, the host prints the
    digits of the nearest number it does hold and, from 1e21 on, an exponent,
    none of which is described here. *)
Definition Number_toString (n : Z) : string := pretty n.

(** The relational operators on the values a sort key can take.  A number is
    [JNum (Some z)], or [JNum None] for NaN; comparing with NaN or with
    [undefined] is false.  The order of two strings is the host's
    ([str_lt], by UTF-16 code units), taken as a parameter; the source never
    compares a number with a string. *)
Inductive value :=
| JNum (n : option Z)
| JStr (s : string)
| JUndefined.

Definition lt (str_lt : string → string → bool) (a b : value) : bool :=
  match a, b with
  | JNum (Some x), JNum (Some y) => x <? y
  | JStr x, JStr y => str_lt x y
  | _, _ => false
  end.

Definition gt (str_lt : string → string → bool) (a b : value) : bool :=
  lt str_lt b a.

(** [Array.prototype.sort] with a comparator, as a stable insertion sort:
    elements are taken from left to right and each is put before the first
    already placed element it compares below.  The language fixes the result
    of a sort, the stable sorted arrangement, only for a comparator that is
    consistent on the elements (a total preorder), and that arrangement is
    what this computes.  With a comparator that is not consistent, as the
    one of the trade table is when a creation date does not parse and its
    key is NaN, the result is left to the engine, which probes other pairs
    than a linear scan does; that case is outside this definition. *)
Fixpoint sort_insert {A} (cmp : A → A → Z) (x : A) (l : list A) : list A :=
  match l with
  | [] => [x]
  | y :: l' => if cmp x y <? 0 then x :: y :: l' else y :: sort_insert cmp x l'
  end.

Definition Array_sort {A} (cmp : A → A → Z) (l : list A) : list A :=
  foldl (λ acc x, sort_insert cmp x acc) [] l.

(** The order any sorting procedure aims at: no element is followed, anywhere
    later in the list, by one the comparator ranks strictly before it. *)
Definition in_order {A} (cmp : A → A → Z) (l : list A) : Prop :=
  StronglySorted (λ x y, cmp x y ≤ 0) l.

(** A settled promise. *)
Inductive Settled (A E : Type) :=
| Fulfilled (a : A)
| Rejected (e : E).
Arguments Fulfilled {A E} a.
Arguments Rejected {A E} e.

(** [Promise.all] over [n] promises none of which rejects: every fulfilment
    [(i, v)] stores [v] in slot [i] of the result array, in whatever order the
    promises are fulfilled; the combined promise is fulfilled with the array
    once every slot is filled. *)
Definition Promise_all_fulfil {A} (slots : list (option A)) (ev : nat * A)
  : list (option A) :=
  <[ev.1 := Some ev.2]> slots.

Definition Promise_all {A} (n : nat) (fulfilments : list (nat * A))
  : option (list A) :=
  mapM id (foldl Promise_all_fulfil (replicate n None) fulfilments).

End JS.

(** ** The backend client (utils/apiClient), as far as the pages use it *)

Module Api.

(** The payload of a failure response. *)
Record ErrorData := {
  data_message : option string;
  data_resultCode : option string;
}.

Record ErrorResponse := {
  resp_data : option ErrorData;
  resp_status : option Z;
}.

(** [interface ApiError]: the shape the pages probe on a rejected call.
    [err_request] is the truthiness of the [request] field. *)
Record ApiError := {
  err_message : option string;
  err_response : option ErrorResponse;
  err_request : bool;
}.

(** [apiError.response?.data?.message] *)
Definition response_data_message (e : ApiError) : option string :=
  r ← err_response e; d ← resp_data r; data_message d.

(** [apiError.response?.status] *)
Definition response_status (e : ApiError) : option Z :=
  r ← err_response e; resp_status r.

(** [apiError.response?.data?.resultCode] *)
Definition response_data_resultCode (e : ApiError) : option string :=
  r ← err_response e; d ← resp_data r; data_resultCode d.

(** The trade detail returned by [adminAPI.getTradeDetail]
    ([interface Trade] of the modal); the two post fields may be absent. *)
Record TradeDetail := {
  id : Z;
  postId : Z;
  postTitle : option string;
  postCategory : option string;
  price : Z;
  status : string;
  createdAt : string;
  sellerEmail : string;
  buyerEmail : string;
}.

(** The response envelope: [{ data }]. *)
Record DetailResponse := {
  data : option TradeDetail;
}.

(** [data?.postTitle] and [data?.postCategory] *)
Definition data_postTitle (r : DetailResponse) : option string :=
  d ← data r; postTitle d.

Definition data_postCategory (r : DetailResponse) : option string :=
  d ← data r; postCategory d.

Definition DetailResult := JS.Settled DetailResponse ApiError.

End Api.

(** ** The registration page *)

Module RegisterPage.

Record FormData := {
  name : string;
  email : string;
  password : string;
  confirmPassword : string;
  agree : bool;
}.

(** The component state: [formData], [isLoading], [error]. *)
Record State := {
  formData : FormData;
  isLoading : bool;
  error : string;
}.

Definition setError (msg : string) (st : State) : State :=
  {| formData := formData st; isLoading := isLoading st; error := msg |}.

Definition setIsLoading (b : bool) (st : State) : State :=
  {| formData := formData st; isLoading := b; error := error st |}.

(** The body of [apiClient.post('/api/auth/signup', ...)]. *)
Record SignupBody := {
  body_name : string;
  body_email : string;
  body_password : string;
}.

Inductive Effect :=
| RouterPush (path : string).

(** What [handleSubmit] has done when it first gives up control: it has
    returned, or it is suspended on the signup request. *)
Inductive Progress :=
| Returned (st : State)
| AwaitPost (url : string) (body : SignupBody) (st : State).

(** [handleSubmit], up to the [await].  ([e.preventDefault()] acts on the
    browser event only and is left out.) *)
Definition handleSubmit (st : State) : Progress :=
  let st := setError "" st in
  let st := setIsLoading true st in
  let fd := formData st in
  if negb (String.eqb (password fd) (confirmPassword fd)) then
    Returned (setIsLoading false (setError "비밀번호가 일치하지 않습니다." st))
  else if negb (agree fd) then
    Returned (setIsLoading false (setError "이용약관에 동의해주세요." st))
  else
    AwaitPost "/api/auth/signup"
      {| body_name := name fd; body_email := email fd; body_password := password fd |}
      st.

(** [handleSubmit], from the settled signup request on
    ([try] continuation, [catch], [finally]). *)
Definition handleSubmit_settled (r : JS.Settled unit Api.ApiError) (st : State)
  : State * list Effect :=
  match r with
  | JS.Fulfilled _ =>
      (setIsLoading false st, [RouterPush "/register/success"])
  | JS.Rejected apiError =>
      let st :=
        if JS.truthy_opt (Api.response_data_message apiError)
        then setError (JS.nullish (Api.response_data_message apiError) "") st
        else setError "서버 연결에 실패했습니다. 다시 시도해주세요." st in
      (setIsLoading false st, [])
  end.

(** Whether a run of [handleSubmit] issued a network request. *)
Definition issued_request (p : Progress) : bool :=
  match p with
  | Returned _ => false
  | AwaitPost _ _ _ => true
  end.

Definition state_of (p : Progress) : State :=
  match p with
  | Returned st => st
  | AwaitPost _ _ st => st
  end.

(** *** The inputs of the form *)

(** The five inputs the form renders, by their [name] attribute; [agree] is
    the only one of type [checkbox]. *)
Inductive Input :=
| input_name
| input_email
| input_password
| input_confirmPassword
| input_agree.

(** [e.target] of a change event: the input, its [value] and its [checked]. *)
Record ChangeEvent := {
  target : Input;
  value : string;
  checked : bool;
}.

Definition setFormData (fd : FormData) (st : State) : State :=
  {| formData := fd; isLoading := isLoading st; error := error st |}.

(** [handleInputChange]: [[name]: type === "checkbox" ? checked : value]. *)
Definition handleInputChange (e : ChangeEvent) (st : State) : State :=
  let prev := formData st in
  setFormData
    match target e with
    | input_name =>
        {| name := value e; email := email prev; password := password prev;
           confirmPassword := confirmPassword prev; agree := agree prev |}
    | input_email =>
        {| name := name prev; email := value e; password := password prev;
           confirmPassword := confirmPassword prev; agree := agree prev |}
    | input_password =>
        {| name := name prev; email := email prev; password := value e;
           confirmPassword := confirmPassword prev; agree := agree prev |}
    | input_confirmPassword =>
        {| name := name prev; email := email prev; password := password prev;
           confirmPassword := value e; agree := agree prev |}
    | input_agree =>
        {| name := name prev; email := email prev; password := password prev;
           confirmPassword := confirmPassword prev; agree := checked e |}
    end
    st.

(** The state the page starts in. *)
Definition initial : State :=
  {| formData := {| name := ""; email := ""; password := "";
                    confirmPassword := ""; agree := false |};
     isLoading := false; error := "" |}.

(** The guard on the auth context: the redirect effect and what is rendered
    instead of the form. *)
Definition redirect_effect (loading isAuthenticated : bool) : list Effect :=
  if negb loading && isAuthenticated then [RouterPush "/"] else [].

Definition shows_form (loading isAuthenticated : bool) : bool :=
  negb (loading || isAuthenticated).

End RegisterPage.

(** ** The login page *)

Module LoginPage.

Record FormData := {
  email : string;
  password : string;
}.

Record State := {
  formData : FormData;
  isLoading : bool;
  error : string;
}.

Definition setError (msg : string) (st : State) : State :=
  {| formData := formData st; isLoading := isLoading st; error := msg |}.

Definition setIsLoading (b : bool) (st : State) : State :=
  {| formData := formData st; isLoading := b; error := error st |}.

Record LoginBody := {
  body_email : string;
  body_password : string;
}.

(** [response.data.data] of a successful login. *)
Record MemberInfo := {
  member_id : Z;
  member_email : string;
  member_name : string;
  member_profileUrl : option string;
  member_role : option string;
}.

Record LoginData := {
  accessToken : option string;
  refreshToken : option string;
  memberInfo : option MemberInfo;
}.

Record LoginResponse := {
  response_data_data : option LoginData;
}.

(** The user handed to [login] of the auth context. *)
Record User := {
  user_id : string;
  user_email : string;
  user_name : string;
  user_profileUrl : option string;
  user_role : string;
}.

Inductive Effect :=
| Login (u : User) (access refresh : option string)
| RouterPush (path : string).

(** [handleSubmit], up to the [await]: the request and the state.
    ([e.preventDefault()] acts on the browser event only and is left out.) *)
Definition handleSubmit (st : State) : string * LoginBody * State :=
  let st := setError "" st in
  let st := setIsLoading true st in
  ("/api/auth/login",
   {| body_email := email (formData st); body_password := password (formData st) |},
   st).

(** The [catch] block of [handleSubmit]: the message for a failed attempt. *)
Definition catch_message (apiError : Api.ApiError) : string :=
  if JS.truthy_opt (Api.response_data_message apiError) then
    JS.nullish (Api.response_data_message apiError) ""
  else if bool_decide (Api.response_status apiError = Some 401) then
    "이메일 혹은 비밀번호를 잘못 입력하셨거나 등록되지 않은 계정입니다."
  else if bool_decide (Api.response_status apiError = Some 400) then
    "이메일 혹은 비밀번호를 잘못 입력하셨거나 등록되지 않은 계정입니다."
  else if bool_decide (Api.response_status apiError = Some 403) then
    let resultCode := Api.response_data_resultCode apiError in
    if bool_decide (resultCode = Some "403-1") then
      "탈퇴한 계정입니다. 새로운 계정으로 가입해주세요."
    else if bool_decide (resultCode = Some "403-2") then
      "관리자에 의해 정지된 계정입니다. 관리자에게 문의 바랍니다."
    else
      "접근 권한이 없습니다."
  else if bool_decide (Api.response_status apiError = Some 500) then
    "서버 오류가 발생했습니다. 잠시 후 다시 시도해주세요."
  else if Api.err_request apiError then
    "서버 연결에 실패했습니다. 네트워크 연결을 확인해주세요."
  else
    "로그인 중 오류가 발생했습니다. 다시 시도해주세요.".

(** [handleSubmit], from the settled login request on. *)
Definition handleSubmit_settled (r : JS.Settled LoginResponse Api.ApiError) (st : State)
  : State * list Effect :=
  match r with
  | JS.Fulfilled response =>
      match response_data_data response with
      | Some d =>
          let fx_login :=
            match memberInfo d with
            | Some m =>
                [Login {| user_id := JS.Number_toString (member_id m);
                          user_email := member_email m;
                          user_name := member_name m;
                          user_profileUrl :=
                            if JS.truthy_opt (member_profileUrl m)
                            then member_profileUrl m else None;
                          user_role := JS.or_else (member_role m) "USER" |}
                       (accessToken d) (refreshToken d)]
            | None => []
            end in
          let userRole := JS.or_else (m ← memberInfo d; member_role m) "USER" in
          let fx_route :=
            if String.eqb userRole "ADMIN"
            then [RouterPush "/admin/members"]
            else [RouterPush "/"] in
          (setIsLoading false st, (fx_login ++ fx_route)%list)
      | None =>
          (setIsLoading false (setError "로그인 응답 데이터가 올바르지 않습니다." st), [])
      end
  | JS.Rejected apiError =>
      (setIsLoading false (setError (catch_message apiError) st), [])
  end.

(** *** The guard on the auth context *)

(** The redirect effect: [role] is [user?.role]. *)
Definition redirect_effect (loading isAuthenticated : bool) (role : option string)
  : list Effect :=
  if negb loading && isAuthenticated then
    if bool_decide (role = Some "ADMIN") then [RouterPush "/admin/members"]
    else [RouterPush "/"]
  else [].

(** *** Password reset *)

Record PasswordResetData := {
  reset_name : string;
  reset_email : string;
  newPassword : string;
  confirmPassword : string;
}.

Definition emptyResetData : PasswordResetData :=
  {| reset_name := ""; reset_email := ""; newPassword := ""; confirmPassword := "" |}.

(** The [useState] cells of the password reset. *)
Record ResetState := {
  showPasswordReset : bool;
  passwordResetStep : Z;
  passwordResetData : PasswordResetData;
  passwordResetLoading : bool;
  passwordResetError : string;
  passwordResetSuccess : string;
}.

Definition resetInitial : ResetState :=
  {| showPasswordReset := false; passwordResetStep := 1;
     passwordResetData := emptyResetData; passwordResetLoading := false;
     passwordResetError := ""; passwordResetSuccess := "" |}.

Definition setShowPasswordReset (b : bool) (rs : ResetState) : ResetState :=
  {| showPasswordReset := b; passwordResetStep := passwordResetStep rs;
     passwordResetData := passwordResetData rs;
     passwordResetLoading := passwordResetLoading rs;
     passwordResetError := passwordResetError rs;
     passwordResetSuccess := passwordResetSuccess rs |}.

Definition setPasswordResetStep (n : Z) (rs : ResetState) : ResetState :=
  {| showPasswordReset := showPasswordReset rs; passwordResetStep := n;
     passwordResetData := passwordResetData rs;
     passwordResetLoading := passwordResetLoading rs;
     passwordResetError := passwordResetError rs;
     passwordResetSuccess := passwordResetSuccess rs |}.

Definition setPasswordResetData (d : PasswordResetData) (rs : ResetState) : ResetState :=
  {| showPasswordReset := showPasswordReset rs; passwordResetStep := passwordResetStep rs;
     passwordResetData := d;
     passwordResetLoading := passwordResetLoading rs;
     passwordResetError := passwordResetError rs;
     passwordResetSuccess := passwordResetSuccess rs |}.

Definition setPasswordResetLoading (b : bool) (rs : ResetState) : ResetState :=
  {| showPasswordReset := showPasswordReset rs; passwordResetStep := passwordResetStep rs;
     passwordResetData := passwordResetData rs;
     passwordResetLoading := b;
     passwordResetError := passwordResetError rs;
     passwordResetSuccess := passwordResetSuccess rs |}.

Definition setPasswordResetError (msg : string) (rs : ResetState) : ResetState :=
  {| showPasswordReset := showPasswordReset rs; passwordResetStep := passwordResetStep rs;
     passwordResetData := passwordResetData rs;
     passwordResetLoading := passwordResetLoading rs;
     passwordResetError := msg;
     passwordResetSuccess := passwordResetSuccess rs |}.

Definition setPasswordResetSuccess (msg : string) (rs : ResetState) : ResetState :=
  {| showPasswordReset := showPasswordReset rs; passwordResetStep := passwordResetStep rs;
     passwordResetData := passwordResetData rs;
     passwordResetLoading := passwordResetLoading rs;
     passwordResetError := passwordResetError rs;
     passwordResetSuccess := msg |}.

(** The four inputs of the reset panels, by their [name] attribute. *)
Inductive ResetInput :=
| input_name
| input_email
| input_newPassword
| input_confirmPassword.

(** [handlePasswordResetInputChange]: [[name]: value]. *)
Definition handlePasswordResetInputChange (i : ResetInput) (value : string)
    (rs : ResetState) : ResetState :=
  let prev := passwordResetData rs in
  setPasswordResetData
    match i with
    | input_name =>
        {| reset_name := value; reset_email := reset_email prev;
           newPassword := newPassword prev; confirmPassword := confirmPassword prev |}
    | input_email =>
        {| reset_name := reset_name prev; reset_email := value;
           newPassword := newPassword prev; confirmPassword := confirmPassword prev |}
    | input_newPassword =>
        {| reset_name := reset_name prev; reset_email := reset_email prev;
           newPassword := value; confirmPassword := confirmPassword prev |}
    | input_confirmPassword =>
        {| reset_name := reset_name prev; reset_email := reset_email prev;
           newPassword := newPassword prev; confirmPassword := value |}
    end
    rs.

(** The body of [memberAPI.verifyMember]. *)
Record VerifyBody := {
  verify_name : string;
  verify_email : string;
}.

Inductive NextStepProgress :=
| NextReturned (rs : ResetState)
| AwaitVerify (body : VerifyBody) (rs : ResetState).

Section Trim.

(** The host's [String.prototype.trim]. *)
Variable trim : string → string.

(** [handleNextStep], up to the [await] of the race. *)
Definition handleNextStep (rs : ResetState) : NextStepProgress :=
  let d := passwordResetData rs in
  if negb (JS.truthy (trim (reset_name d))) || negb (JS.truthy (trim (reset_email d))) then
    NextReturned (setPasswordResetError "이름과 이메일을 모두 입력해주세요." rs)
  else
    AwaitVerify
      {| verify_name := trim (reset_name d); verify_email := trim (reset_email d) |}
      (setPasswordResetLoading true (setPasswordResetError "" rs)).

End Trim.

(** [Promise.race([verifyPromise, timeoutPromise])]: the verification settles
    within the five seconds, or the timer rejects first with
    [new Error('요청 시간이 초과되었습니다.')]. *)
Inductive RaceWinner :=
| VerifyFirst (r : JS.Settled unit Api.ApiError)
| TimerFirst.

Definition timeoutError : Api.ApiError :=
  {| Api.err_message := Some "요청 시간이 초과되었습니다.";
     Api.err_response := None; Api.err_request := false |}.

Definition race (w : RaceWinner) : JS.Settled unit Api.ApiError :=
  match w with
  | VerifyFirst r => r
  | TimerFirst => JS.Rejected timeoutError
  end.

(** The [catch] block of [handleNextStep]. *)
Definition nextStep_catch_message (apiError : Api.ApiError) : string :=
  if bool_decide (Api.err_message apiError = Some "요청 시간이 초과되었습니다.") then
    "서버 응답이 지연되고 있습니다. 잠시 후 다시 시도해주세요."
  else if JS.truthy_opt (Api.response_data_message apiError) then
    JS.nullish (Api.response_data_message apiError) ""
  else if bool_decide (Api.response_status apiError = Some 404) then
    "입력하신 이름과 이메일로 등록된 계정을 찾을 수 없습니다. 회원가입을 먼저 진행해주세요."
  else
    "해당 정보와 일치하는 회원이 없습니다.".

(** [handleNextStep], from the settled race on. *)
Definition handleNextStep_settled (w : RaceWinner) (rs : ResetState) : ResetState :=
  match race w with
  | JS.Fulfilled _ => setPasswordResetLoading false (setPasswordResetStep 2 rs)
  | JS.Rejected apiError =>
      setPasswordResetLoading false
        (setPasswordResetError (nextStep_catch_message apiError) rs)
  end.

Inductive ResetProgress :=
| ResetReturned (rs : ResetState)
| AwaitUpdate (body : PasswordResetData) (rs : ResetState).

(** [handlePasswordReset], up to the [await]; the early [return] inside the
    [try] still runs the [finally]. *)
Definition handlePasswordReset (rs : ResetState) : ResetProgress :=
  let rs := setPasswordResetError "" rs in
  let rs := setPasswordResetSuccess "" rs in
  let rs := setPasswordResetLoading true rs in
  let d := passwordResetData rs in
  if negb (String.eqb (newPassword d) (confirmPassword d)) then
    ResetReturned
      (setPasswordResetLoading false
         (setPasswordResetError "새 비밀번호와 확인 비밀번호가 일치하지 않습니다." rs))
  else
    AwaitUpdate d rs.

(** The [catch] block of [handlePasswordReset]. *)
Definition reset_catch_message (apiError : Api.ApiError) : string :=
  if JS.truthy_opt (Api.response_data_message apiError) then
    JS.nullish (Api.response_data_message apiError) ""
  else if bool_decide (Api.response_status apiError = Some 404) then
    "해당 정보와 일치하는 회원이 없습니다."
  else if bool_decide (Api.response_status apiError = Some 400) then
    "입력 정보를 확인해주세요."
  else
    "비밀번호 변경 중 오류가 발생했습니다. 다시 시도해주세요.".

(** [handlePasswordReset], from the settled update request on. *)
Definition handlePasswordReset_settled (r : JS.Settled unit Api.ApiError)
    (rs : ResetState) : ResetState :=
  match r with
  | JS.Fulfilled _ =>
      setPasswordResetLoading false
        (setPasswordResetData emptyResetData
           (setPasswordResetSuccess "비밀번호가 성공적으로 변경되었습니다." rs))
  | JS.Rejected apiError =>
      setPasswordResetLoading false
        (setPasswordResetError (reset_catch_message apiError) rs)
  end.

Definition handleBackToLogin (rs : ResetState) : ResetState :=
  setPasswordResetSuccess ""
    (setPasswordResetError ""
       (setPasswordResetData emptyResetData
          (setPasswordResetStep 1 (setShowPasswordReset false rs)))).

(** The panel the card shows: the login form, or one of the three reset
    panels. *)
Inductive Panel :=
| LoginForm
| ResetStep1
| ResetDone (msg : string)
| ResetStep2.

Definition panel (rs : ResetState) : Panel :=
  if negb (showPasswordReset rs) then LoginForm
  else if passwordResetStep rs =? 1 then ResetStep1
  else if JS.truthy (passwordResetSuccess rs) then ResetDone (passwordResetSuccess rs)
  else ResetStep2.

End LoginPage.

(** ** The admin trade table *)

Module AdminTradesPage.

(** [interface Trade] *)
Record Trade := {
  id : Z;
  postId : Z;
  sellerId : Z;
  buyerId : Z;
  price : Z;
  status : string;
  createdAt : string;
}.

(** [interface TradeWithPostInfo extends Trade]: the trade's own fields
    ([...trade]) and the two optional post fields. *)
Record TradeWithPostInfo := {
  trade : Trade;
  postTitle : option string;
  postCategory : option string;
}.

Definition getStatusLabel (status : string) : string :=
  if String.eqb status "REQUEST" then "거래 요청"
  else if String.eqb status "ACCEPT" then "거래 수락"
  else if String.eqb status "CANCELED" then "거래 취소"
  else if String.eqb status "COMPLETED" then "거래 완료"
  else status.

Definition koreanCategories : list string :=
  ["물건발명"; "방법발명"; "용도발명"; "디자인권"; "상표권"; "저작권"].

Definition getCategoryLabel (category : string) : string :=
  if JS.Array_includes koreanCategories category then category
  else if String.eqb category "PRODUCT" then "물건발명"
  else if String.eqb category "METHOD" then "방법발명"
  else if String.eqb category "USAGE" then "용도발명"
  else if String.eqb category "DESIGN" then "디자인권"
  else if String.eqb category "TRADEMARK" then "상표권"
  else if String.eqb category "COPYRIGHT" then "저작권"
  else if JS.truthy category then category else "기타".

Inductive SortOrder := asc | desc.

(** The [useState] cells of the page. *)
Record State := {
  selectedTradeId : option Z;
  isModalOpen : bool;
  searchTerm : string;
  statusFilter : string;
  sortBy : string;
  sortOrder : SortOrder;
  tradesWithPostInfo : list TradeWithPostInfo;
}.

Definition initial : State :=
  {| selectedTradeId := None; isModalOpen := false; searchTerm := "";
     statusFilter := "ALL"; sortBy := "createdAt"; sortOrder := desc;
     tradesWithPostInfo := [] |}.

Definition setTradesWithPostInfo (l : list TradeWithPostInfo) (st : State) : State :=
  {| selectedTradeId := selectedTradeId st; isModalOpen := isModalOpen st;
     searchTerm := searchTerm st; statusFilter := statusFilter st;
     sortBy := sortBy st; sortOrder := sortOrder st;
     tradesWithPostInfo := l |}.

(** The callback mapped over the trades in [fetchPostInfoForTrades], from the
    settled [adminAPI.getTradeDetail(trade.id)] on: the [try] continuation
    and the [catch]. *)
Definition withPostInfo (t : Trade) (r : Api.DetailResult) : TradeWithPostInfo :=
  match r with
  | JS.Fulfilled response =>
      {| trade := t;
         postTitle := Some (JS.nullish (Api.data_postTitle response) "제목 없음");
         postCategory :=
           Some (if JS.truthy_opt (Api.data_postCategory response)
                 then getCategoryLabel (JS.nullish (Api.data_postCategory response) "")
                 else "카테고리 없음") |}
  | JS.Rejected _ =>
      {| trade := t;
         postTitle := Some "제목 없음";
         postCategory := Some "카테고리 없음" |}
  end.

(** [fetchPostInfoForTrades].  [getTradeDetail i n] is how the request the
    callback issues for the trade at position [i], with identifier [n],
    settles; [settle_order] lists the positions in the order in which their
    requests settle.  The result is [None] while the function is still
    suspended on [Promise.all]. *)
Definition fetchPostInfoForTrades
    (getTradeDetail : nat → Z → Api.DetailResult) (settle_order : list nat)
    (trades : list Trade) (st : State) : option State :=
  results ← JS.Promise_all (length trades)
              (omap (λ i, t ← trades !! i;
                          Some (i, withPostInfo t (getTradeDetail i (id t))))
                    settle_order);
  Some (setTradesWithPostInfo results st).

(** The effect on [trades]. *)
Definition trades_effect
    (getTradeDetail : nat → Z → Api.DetailResult) (settle_order : list nat)
    (trades : list Trade) (st : State) : option State :=
  if (0 <? length trades)%nat
  then fetchPostInfoForTrades getTradeDetail settle_order trades st
  else Some (setTradesWithPostInfo [] st).

Definition handleTradeClick (tradeId : Z) (st : State) : State :=
  {| selectedTradeId := Some tradeId; isModalOpen := true;
     searchTerm := searchTerm st; statusFilter := statusFilter st;
     sortBy := sortBy st; sortOrder := sortOrder st;
     tradesWithPostInfo := tradesWithPostInfo st |}.

Definition handleModalClose (st : State) : State :=
  {| selectedTradeId := None; isModalOpen := false;
     searchTerm := searchTerm st; statusFilter := statusFilter st;
     sortBy := sortBy st; sortOrder := sortOrder st;
     tradesWithPostInfo := tradesWithPostInfo st |}.

(** [o && o.includes(searchTerm)] on an optional field. *)
Definition field_includes (o : option string) (term : string) : bool :=
  match o with
  | Some s => JS.truthy s && JS.includes s term
  | None => false
  end.

Definition matchesSearch (st : State) (t : TradeWithPostInfo) : bool :=
  JS.includes (JS.Number_toString (id (trade t))) (searchTerm st)
  || field_includes (postTitle t) (searchTerm st)
  || field_includes (postCategory t) (searchTerm st)
  || JS.includes (JS.Number_toString (price (trade t))) (searchTerm st).

Definition matchesStatus (st : State) (t : TradeWithPostInfo) : bool :=
  String.eqb (statusFilter st) "ALL" || String.eqb (status (trade t)) (statusFilter st).

Definition filteredTrades (st : State) : list TradeWithPostInfo :=
  List.filter (λ t, matchesSearch st t && matchesStatus st t) (tradesWithPostInfo st).

Section Sorting.

(** The host's date parser and string order: [new Date(s).getTime()]
    ([None] for NaN) and [<] on strings. *)
Variable Date_getTime : string → option Z.
Variable str_lt : string → string → bool.

(** [a[key]]: the data fields of the record; any other key is taken to
    name no property. *)
Definition property (key : string) (t : TradeWithPostInfo) : JS.value :=
  if String.eqb key "id" then JS.JNum (Some (id (trade t)))
  else if String.eqb key "postId" then JS.JNum (Some (postId (trade t)))
  else if String.eqb key "sellerId" then JS.JNum (Some (sellerId (trade t)))
  else if String.eqb key "buyerId" then JS.JNum (Some (buyerId (trade t)))
  else if String.eqb key "price" then JS.JNum (Some (price (trade t)))
  else if String.eqb key "status" then JS.JStr (status (trade t))
  else if String.eqb key "createdAt" then JS.JStr (createdAt (trade t))
  else if String.eqb key "postTitle" then
    from_option JS.JStr JS.JUndefined (postTitle t)
  else if String.eqb key "postCategory" then
    from_option JS.JStr JS.JUndefined (postCategory t)
  else JS.JUndefined.

(** The [switch (sortBy)] of the comparator: the value compared. *)
Definition sortValue (key : string) (t : TradeWithPostInfo) : JS.value :=
  if String.eqb key "createdAt" then JS.JNum (Date_getTime (createdAt (trade t)))
  else if String.eqb key "price" then JS.JNum (Some (price (trade t)))
  else if String.eqb key "id" then JS.JNum (Some (id (trade t)))
  else if String.eqb key "postTitle" then JS.JStr (JS.or_else (postTitle t) "")
  else if String.eqb key "postCategory" then JS.JStr (JS.or_else (postCategory t) "")
  else property key t.

Definition compareTrades (st : State) (a b : TradeWithPostInfo) : Z :=
  let aValue := sortValue (sortBy st) a in
  let bValue := sortValue (sortBy st) b in
  match sortOrder st with
  | asc => if JS.gt str_lt aValue bValue then 1 else -1
  | desc => if JS.lt str_lt aValue bValue then 1 else -1
  end.

Definition sortedTrades (st : State) : list TradeWithPostInfo :=
  JS.Array_sort (compareTrades st) (filteredTrades st).

End Sorting.

(** *** The rest of the page: badges, table cells, view-state handlers *)

Definition getStatusColor (status : string) : string :=
  if String.eqb status "REQUEST" then "bg-yellow-100 text-yellow-800"
  else if String.eqb status "ACCEPT" then "bg-blue-100 text-blue-800"
  else if String.eqb status "CANCELED" then "bg-red-100 text-red-800"
  else if String.eqb status "COMPLETED" then "bg-green-100 text-green-800"
  else "bg-gray-100 text-gray-800".

(** [o === s] for an optional field. *)
Definition field_is (o : option string) (s : string) : bool :=
  match o with
  | Some x => String.eqb x s
  | None => false
  end.

(** The colour classes of the category badge of a row: the conditional chain
    on [trade.postCategory] in the table body. *)
Definition categoryBadgeClass (postCategory : option string) : string :=
  if field_is postCategory "물건발명" then "bg-blue-100 text-blue-800"
  else if field_is postCategory "방법발명" then "bg-green-100 text-green-800"
  else if field_is postCategory "용도발명" then "bg-purple-100 text-purple-800"
  else if field_is postCategory "디자인권" then "bg-orange-100 text-orange-800"
  else if field_is postCategory "상표권" then "bg-red-100 text-red-800"
  else if field_is postCategory "저작권" then "bg-indigo-100 text-indigo-800"
  else if field_is postCategory "기타" then "bg-gray-100 text-gray-800"
  else "bg-gray-100 text-gray-800".

(** The title and category cells of a row:
    [trade.postTitle || '제목 없음'] and [trade.postCategory || '카테고리 없음']. *)
Definition titleCell (t : TradeWithPostInfo) : string :=
  JS.or_else (postTitle t) "제목 없음".

Definition categoryCell (t : TradeWithPostInfo) : string :=
  JS.or_else (postCategory t) "카테고리 없음".

Definition setSearchTerm (s : string) (st : State) : State :=
  {| selectedTradeId := selectedTradeId st; isModalOpen := isModalOpen st;
     searchTerm := s; statusFilter := statusFilter st;
     sortBy := sortBy st; sortOrder := sortOrder st;
     tradesWithPostInfo := tradesWithPostInfo st |}.

Definition setStatusFilter (s : string) (st : State) : State :=
  {| selectedTradeId := selectedTradeId st; isModalOpen := isModalOpen st;
     searchTerm := searchTerm st; statusFilter := s;
     sortBy := sortBy st; sortOrder := sortOrder st;
     tradesWithPostInfo := tradesWithPostInfo st |}.

Definition setSortBy (key : string) (st : State) : State :=
  {| selectedTradeId := selectedTradeId st; isModalOpen := isModalOpen st;
     searchTerm := searchTerm st; statusFilter := statusFilter st;
     sortBy := key; sortOrder := sortOrder st;
     tradesWithPostInfo := tradesWithPostInfo st |}.

Definition setSortOrder (o : SortOrder) (st : State) : State :=
  {| selectedTradeId := selectedTradeId st; isModalOpen := isModalOpen st;
     searchTerm := searchTerm st; statusFilter := statusFilter st;
     sortBy := sortBy st; sortOrder := o;
     tradesWithPostInfo := tradesWithPostInfo st |}.

(** The [onClick] of a sortable column header, for the header's key. *)
Definition sortHeaderClick (key : string) (st : State) : State :=
  if String.eqb (sortBy st) key then
    setSortOrder (match sortOrder st with asc => desc | desc => asc end) st
  else
    setSortOrder desc (setSortBy key st).

(** The four sortable headers of the table and the options of the status
    select. *)
Definition headerKeys : list string := ["postTitle"; "postCategory"; "price"; "createdAt"].

Definition statusOptions : list string :=
  ["ALL"; "REQUEST"; "ACCEPT"; "CANCELED"; "COMPLETED"].



End AdminTradesPage.

(** ** The trade detail modal *)

Module TradeDetailModal.

(** [TradeDetailModalProps]; the two callbacks are the parent's and appear
    as [Callback]s in the results below. *)
Record Props := {
  isOpen : bool;
  tradeId : Z;
}.

(** The [useState] cells of the modal. *)
Record State := {
  trade : option Api.TradeDetail;
  isLoading : bool;
  error : option string;
}.

Definition initial : State :=
  {| trade := None; isLoading := false; error := None |}.

Definition setTrade (t : option Api.TradeDetail) (st : State) : State :=
  {| trade := t; isLoading := isLoading st; error := error st |}.

Definition setIsLoading (b : bool) (st : State) : State :=
  {| trade := trade st; isLoading := b; error := error st |}.

Definition setError (e : option string) (st : State) : State :=
  {| trade := trade st; isLoading := isLoading st; error := e |}.

Inductive Callback :=
| OnClose.

Definition getStatusLabel (status : string) : string :=
  if String.eqb status "REQUEST" then "거래 요청"
  else if String.eqb status "ACCEPT" then "거래 수락"
  else if String.eqb status "CANCELED" then "거래 취소"
  else if String.eqb status "COMPLETED" then "거래 완료"
  else status.

(** [fetchTradeDetail], up to the [await]: the new state and the identifier
    requested, if a request is issued. *)
Definition fetchTradeDetail (p : Props) (st : State) : State * option Z :=
  if tradeId p =? 0 then (st, None)
  else (setError None (setIsLoading true st), Some (tradeId p)).

(** [fetchTradeDetail], from the settled request on. *)
Definition fetchTradeDetail_settled (r : Api.DetailResult) (st : State) : State :=
  match r with
  | JS.Fulfilled response =>
      setIsLoading false (setTrade (Api.data response) st)
  | JS.Rejected apiError =>
      setIsLoading false
        (setError
           (Some (JS.or_else (Api.response_data_message apiError)
                    "거래 상세 정보를 불러오는데 실패했습니다."))
           st)
  end.

(** The effect on [isOpen, tradeId, fetchTradeDetail]. *)
Definition open_effect (p : Props) (st : State) : State * option Z :=
  if isOpen p && negb (tradeId p =? 0) then fetchTradeDetail p st else (st, None).

(** The effect runs after the first render of an instance ([prev] is [None])
    and after a render in which a dependency differs from the previous
    render; [fetchTradeDetail] changes exactly when [tradeId] does. *)
Definition deps_changed (prev : option Props) (p : Props) : bool :=
  match prev with
  | None => true
  | Some q => negb (Bool.eqb (isOpen p) (isOpen q) && (tradeId p =? tradeId q))
  end.

Definition after_render (prev : option Props) (p : Props) (st : State)
  : State * option Z :=
  if deps_changed prev p then open_effect p st else (st, None).

Definition handleClose (st : State) : State * list Callback :=
  (setError None (setTrade None st), [OnClose]).

(** [handleBackdropClick]; the argument is [e.target === e.currentTarget]. *)
Definition handleBackdropClick (on_backdrop : bool) (st : State)
  : State * list Callback :=
  if on_backdrop then handleClose st else (st, []).

(** What the modal shows. *)
Inductive View :=
| Hidden
| Spinner
| ErrorPanel (msg : string)
| Detail (t : Api.TradeDetail)
| Blank.

Definition render (p : Props) (st : State) : View :=
  if negb (isOpen p) then Hidden
  else if isLoading st then Spinner
  else if JS.truthy_opt (error st) then ErrorPanel (JS.nullish (error st) "")
  else match trade st with
       | Some t => Detail t
       | None => Blank
       end.

Definition getStatusColor (status : string) : string :=
  if String.eqb status "REQUEST" then "bg-yellow-100 text-yellow-800"
  else if String.eqb status "ACCEPT" then "bg-blue-100 text-blue-800"
  else if String.eqb status "CANCELED" then "bg-red-100 text-red-800"
  else if String.eqb status "COMPLETED" then "bg-green-100 text-green-800"
  else "bg-gray-100 text-gray-800".

(** The places of the rendered modal (lines 119-229) a click can land on: the
    full-screen root [div] around the card, which is the backdrop; the card
    outside its buttons; the close icon of the header; the retry button of
    the error panel; the close button of the footer. *)
Inductive Element :=
| Backdrop
| Card
| CloseIcon
| RetryButton
| CloseButton.

(** The functions of the component that the JSX passes as [onClick]. *)
Inductive Handler :=
| HandleClose
| FetchTradeDetail.

(** The [onClick] props of the JSX.  There are three: on the close icon
    (line 125), on the retry button (line 147) and on the footer button
    (line 223).  Neither [div] has one, and [handleBackdropClick] is passed
    to no element. *)
Definition onClick (el : Element) : option Handler :=
  match el with
  | CloseIcon => Some HandleClose
  | RetryButton => Some FetchTradeDetail
  | CloseButton => Some HandleClose
  | Backdrop => None
  | Card => None
  end.

(** Whether a place is in the tree of the current render: nothing is when
    the modal is closed, and the retry button only in the error panel. *)
Definition rendered (p : Props) (st : State) (el : Element) : bool :=
  match render p st, el with
  | Hidden, _ => false
  | ErrorPanel _, RetryButton => true
  | _, RetryButton => false
  | _, _ => true
  end.

(** A click on a place of the rendered modal: the state after it, the parent
    callbacks called and the identifier requested, if any.  The click
    bubbles from the target up to the root, and the only handlers on that
    path are the target's own, as the ancestors of the buttons are the two
    [div]s and plain containers. *)
Definition click (el : Element) (p : Props) (st : State)
  : State * list Callback * option Z :=
  if rendered p st el then
    match onClick el with
    | Some HandleClose => (handleClose st, None)
    | Some FetchTradeDetail =>
        let r := fetchTradeDetail p st in (r.1, [], r.2)
    | None => (st, [], None)
    end
  else (st, [], None).

End TradeDetailModal.

(** ** The page together with the modal it renders

    The admin page renders [{selectedTradeId && <TradeDetailModal isOpen=
    {isModalOpen} tradeId={selectedTradeId} onClose={handleModalClose} .../>}].
    The framework keeps one modal instance while that element stays rendered,
    re-running the instance's effect when [isOpen] or [tradeId] changes; it
    discards the instance and its state when the element is no longer
    rendered, and mounts a fresh instance, in its initial state, when the
    element is rendered again.  A request continues to belong to the instance
    that issued it: when it settles its continuation sets the state of that
    instance, which has no effect once the instance is discarded. *)

Module AdminTradesApp.

Record Mounted := {
  key : nat;
  props : TradeDetailModal.Props;
  mstate : TradeDetailModal.State;
}.

(** The page state, the mounted modal instance if any, the key of the next
    instance, and the requests in flight: issuing instance and requested
    identifier. *)
Record App := {
  page : AdminTradesPage.State;
  modal : option Mounted;
  next_key : nat;
  inflight : list (nat * Z);
}.

Definition initial : App :=
  {| page := AdminTradesPage.initial; modal := None; next_key := 0%nat; inflight := [] |}.

(** The props of the modal element, when the page renders it. *)
Definition modal_props (pg : AdminTradesPage.State) : option TradeDetailModal.Props :=
  match AdminTradesPage.selectedTradeId pg with
  | Some n =>
      if n =? 0 then None
      else Some {| TradeDetailModal.isOpen := AdminTradesPage.isModalOpen pg;
                   TradeDetailModal.tradeId := n |}
  | None => None
  end.

Definition issue (k : nat) (req : option Z) (l : list (nat * Z)) : list (nat * Z) :=
  match req with
  | Some n => (l ++ [(k, n)])%list
  | None => l
  end.

(** Re-rendering after a change of the page state. *)
Definition rerender (a : App) : App :=
  match modal_props (page a), modal a with
  | None, _ =>
      {| page := page a; modal := None; next_key := next_key a; inflight := inflight a |}
  | Some p, None =>
      let '(st, req) := TradeDetailModal.after_render None p TradeDetailModal.initial in
      {| page := page a;
         modal := Some {| key := next_key a; props := p; mstate := st |};
         next_key := S (next_key a);
         inflight := issue (next_key a) req (inflight a) |}
  | Some p, Some m =>
      let '(st, req) := TradeDetailModal.after_render (Some (props m)) p (mstate m) in
      {| page := page a;
         modal := Some {| key := key m; props := p; mstate := st |};
         next_key := next_key a;
         inflight := issue (key m) req (inflight a) |}
  end.

Inductive Event :=
| TradeClick (tradeId : Z)
| CloseClick
| RetryClick
| Settle (n : nat) (r : Api.DetailResult).

Definition with_page (pg : AdminTradesPage.State) (a : App) : App :=
  {| page := pg; modal := modal a; next_key := next_key a; inflight := inflight a |}.

Definition with_mstate (m : Mounted) (st : TradeDetailModal.State) (a : App) : App :=
  {| page := page a;
     modal := Some {| key := key m; props := props m; mstate := st |};
     next_key := next_key a; inflight := inflight a |}.

Definition run_callback (a : App) (c : TradeDetailModal.Callback) : App :=
  match c with
  | TradeDetailModal.OnClose => with_page (AdminTradesPage.handleModalClose (page a)) a
  end.

(** One event: a click on a table row, on a close control of the open modal,
    on the retry button of its error panel, or the [n]-th request in flight
    settling. *)
Definition step (a : App) (ev : Event) : App :=
  match ev with
  | TradeClick n =>
      rerender (with_page (AdminTradesPage.handleTradeClick n (page a)) a)
  | CloseClick =>
      match modal a with
      | Some m =>
          if TradeDetailModal.isOpen (props m) then
            let '(st, cbs) := TradeDetailModal.handleClose (mstate m) in
            rerender (foldl run_callback (with_mstate m st a) cbs)
          else a
      | None => a
      end
  | RetryClick =>
      match modal a with
      | Some m =>
          match TradeDetailModal.render (props m) (mstate m) with
          | TradeDetailModal.ErrorPanel _ =>
              let '(st, req) := TradeDetailModal.fetchTradeDetail (props m) (mstate m) in
              {| page := page a;
                 modal := Some {| key := key m; props := props m; mstate := st |};
                 next_key := next_key a;
                 inflight := issue (key m) req (inflight a) |}
          | _ => a
          end
      | None => a
      end
  | Settle n r =>
      match inflight a !! n with
      | Some (k, _) =>
          let rest := delete n (inflight a) in
          match modal a with
          | Some m =>
              if (k =? key m)%nat then
                {| page := page a;
                   modal := Some {| key := key m; props := props m;
                                    mstate := TradeDetailModal.fetchTradeDetail_settled r (mstate m) |};
                   next_key := next_key a; inflight := rest |}
              else
                {| page := page a; modal := modal a; next_key := next_key a; inflight := rest |}
          | None =>
              {| page := page a; modal := None; next_key := next_key a; inflight := rest |}
          end
      | None => a
      end
  end.

Definition run (a : App) (evs : list Event) : App := foldl step a evs.

(** What the modal shows, and the identifier currently requested. *)
Definition view (a : App) : TradeDetailModal.View :=
  match modal a with
  | Some m => TradeDetailModal.render (props m) (mstate m)
  | None => TradeDetailModal.Hidden
  end.

Definition requested (a : App) : option Z :=
  TradeDetailModal.tradeId <$> modal_props (page a).

End AdminTradesApp.


(** ** The wire values and sample data *)

(** The four status codes and the six category codes of the backend. *)
Definition statusCodes : list string := ["REQUEST"; "ACCEPT"; "CANCELED"; "COMPLETED"].

Definition categoryCodes : list string :=
  ["PRODUCT"; "METHOD"; "USAGE"; "DESIGN"; "TRADEMARK"; "COPYRIGHT"].

Module Sample.

(** A trade of the list endpoint and a detail of the detail endpoint. *)
Definition a_trade (n p : Z) (s : string) : AdminTradesPage.Trade :=
  {| AdminTradesPage.id := n; AdminTradesPage.postId := 10 + n;
     AdminTradesPage.sellerId := 1; AdminTradesPage.buyerId := 2;
     AdminTradesPage.price := p; AdminTradesPage.status := s;
     AdminTradesPage.createdAt := "2025-08-01T09:00:00" |}.

Definition a_detail (n : Z) (title category : option string) : Api.TradeDetail :=
  {| Api.id := n; Api.postId := 10 + n;
     Api.postTitle := title; Api.postCategory := category;
     Api.price := 1000; Api.status := "REQUEST";
     Api.createdAt := "2025-08-01T09:00:00";
     Api.sellerEmail := "seller@example.com"; Api.buyerEmail := "buyer@example.com" |}.

Definition fulfilled (n : Z) (title category : option string) : Api.DetailResult :=
  JS.Fulfilled {| Api.data := Some (a_detail n title category) |}.

(** A failure that carries only a status code and a result code. *)
Definition status_only (code : Z) (resultCode : option string) : Api.ApiError :=
  {| Api.err_message := None;
     Api.err_response :=
       Some {| Api.resp_data := Some {| Api.data_message := None;
                                        Api.data_resultCode := resultCode |};
               Api.resp_status := Some code |};
     Api.err_request := true |}.

(** A backend on which the request issued for position [k] fails and every
    other request returns the given title and category. *)
Definition failing_at (k : nat) (title category : string)
  : nat → Z → Api.DetailResult :=
  λ i n, if (i =? k)%nat then JS.Rejected (status_only 500 None)
         else fulfilled n (Some title) (Some category).

(** A failure whose payload has an empty message. *)
Definition empty_message (code : Z) : Api.ApiError :=
  {| Api.err_message := Some "Request failed";
     Api.err_response :=
       Some {| Api.resp_data := Some {| Api.data_message := Some "";
                                        Api.data_resultCode := None |};
               Api.resp_status := Some code |};
     Api.err_request := true |}.

(** A transport failure: no response was received. *)
Definition no_response : Api.ApiError :=
  {| Api.err_message := Some "Network Error"; Api.err_response := None;
     Api.err_request := true |}.

(** An enriched record, and a page state showing a table of them. *)
Definition an_enriched (n p : Z) (s title category : string)
  : AdminTradesPage.TradeWithPostInfo :=
  {| AdminTradesPage.trade := a_trade n p s;
     AdminTradesPage.postTitle := Some title;
     AdminTradesPage.postCategory := Some category |}.

(** An enriched record created at a given time, and a [Date.getTime] for
    creation dates of the form [YYYY-MM-DDThh:mm:ss]: the digits read as one
    number, which orders such dates as the calendar does; any other string
    is an invalid date. *)
Definition an_enriched_at (n p : Z) (s created : string)
  : AdminTradesPage.TradeWithPostInfo :=
  {| AdminTradesPage.trade :=
       {| AdminTradesPage.id := n; AdminTradesPage.postId := 10 + n;
          AdminTradesPage.sellerId := 1; AdminTradesPage.buyerId := 2;
          AdminTradesPage.price := p; AdminTradesPage.status := s;
          AdminTradesPage.createdAt := created |};
     AdminTradesPage.postTitle := Some "A";
     AdminTradesPage.postCategory := Some "물건발명" |}.

Definition is_digit (c : Ascii.ascii) : bool :=
  let n := Ascii.nat_of_ascii c in ((48 <=? n) && (n <=? 57))%nat.

(** The separators [-], [T] and [:]. *)
Definition is_separator (c : Ascii.ascii) : bool :=
  let n := Ascii.nat_of_ascii c in ((n =? 45) || (n =? 84) || (n =? 58))%nat.

Fixpoint stamp (acc : Z) (digits : nat) (s : string) : option Z :=
  match s with
  | EmptyString => if (digits =? 14)%nat then Some acc else None
  | String c s' =>
      if is_digit c
      then stamp (10 * acc + Z.of_nat (Ascii.nat_of_ascii c - 48)) (S digits) s'
      else if is_separator c
      then stamp acc digits s'
      else None
  end.

Definition clock (s : string) : option Z := stamp 0 0 s.

Definition a_table (l : list AdminTradesPage.TradeWithPostInfo)
    (term filter key : string) (order : AdminTradesPage.SortOrder)
  : AdminTradesPage.State :=
  {| AdminTradesPage.selectedTradeId := None; AdminTradesPage.isModalOpen := false;
     AdminTradesPage.searchTerm := term; AdminTradesPage.statusFilter := filter;
     AdminTradesPage.sortBy := key; AdminTradesPage.sortOrder := order;
     AdminTradesPage.tradesWithPostInfo := l |}.

(** A [trim] for strings whose only white space is ASCII: leading and trailing
    spaces, tabs and line breaks are removed. *)
Definition is_space (c : Ascii.ascii) : bool :=
  let n := Ascii.nat_of_ascii c in
  ((n =? 32) || ((9 <=? n) && (n <=? 13)))%nat.

Fixpoint drop_spaces (l : list Ascii.ascii) : list Ascii.ascii :=
  match l with
  | c :: l' => if is_space c then drop_spaces l' else l
  | [] => []
  end.

Definition trim_ascii (s : string) : string :=
  String.string_of_list_ascii
    (rev (drop_spaces (rev (drop_spaces (String.list_ascii_of_string s))))).

(** A reset state as the user left it on the first panel. *)
Definition reset_typed (n e : string) : LoginPage.ResetState :=
  {| LoginPage.showPasswordReset := true; LoginPage.passwordResetStep := 1;
     LoginPage.passwordResetData :=
       {| LoginPage.reset_name := n; LoginPage.reset_email := e;
          LoginPage.newPassword := ""; LoginPage.confirmPassword := "" |};
     LoginPage.passwordResetLoading := false;
     LoginPage.passwordResetError := ""; LoginPage.passwordResetSuccess := "" |}.

End Sample.

(** ** The filter of the trade table, in the words of its description *)

Module Described.

(** [t] occurs in [s] as a substring, compared character by character. *)
Definition contains (s t : string) : Prop :=
  ∃ p q : string, s = p +:+ t +:+ q.

(** The decimal string of an integer, written out here on its own: the
    character of a digit is ["0"] moved up by the digit; the digits of a
    positive number are those of its tenth part followed by its last digit
    (a number has no more decimal digits than binary ones, which bounds the
    recursion); zero is ["0"]; a negative number is ["-"] and the digits of
    its absolute value. *)
Definition digit (d : N) : Ascii.ascii := Ascii.ascii_of_N (48 + d).

Fixpoint digits (fuel : nat) (n : N) (acc : string) : string :=
  match fuel with
  | O => acc
  | S fuel' =>
      if (n =? 0)%N then acc
      else digits fuel' (n `div` 10)%N (String (digit (n `mod` 10)%N) acc)
  end.

Definition numeral (n : N) : string :=
  if (n =? 0)%N then "0" else digits (N.to_nat (N.size n)) n "".

Definition decimal (z : Z) : string :=
  match z with
  | Z0 => "0"
  | Zpos p => numeral (Npos p)
  | Zneg p => "-" +:+ numeral (Npos p)
  end.

(** Reading a decimal string back: the value of a non-empty string of digits,
    the most significant first, after an optional minus sign; any other
    string has no value. *)
Definition digit_value (c : Ascii.ascii) : option Z :=
  let k := Z.of_N (Ascii.N_of_ascii c) in
  if (48 <=? k) && (k <=? 57) then Some (k - 48) else None.

Fixpoint numeral_value (acc : Z) (s : string) : option Z :=
  match s with
  | EmptyString => Some acc
  | String c s' =>
      match digit_value c with
      | Some d => numeral_value (10 * acc + d) s'
      | None => None
      end
  end.

Definition is_minus (c : Ascii.ascii) : bool :=
  (Ascii.N_of_ascii c =? 45)%N.

Definition decimal_value (s : string) : option Z :=
  match s with
  | EmptyString => None
  | String c s' =>
      if is_minus c
      then match s' with
           | EmptyString => None
           | String _ _ => option_map Z.opp (numeral_value 0 s')
           end
      else numeral_value 0 s
  end.

(** The numbers of a record, its identifier and its price, are safe
    integers. *)
Definition safe_numbers (t : AdminTradesPage.TradeWithPostInfo) : Prop :=
  JS.isSafeInteger (AdminTradesPage.id (AdminTradesPage.trade t)) = true
  ∧ JS.isSafeInteger (AdminTradesPage.price (AdminTradesPage.trade t)) = true.

(** The four searched fields of a record: the identifier and the price as
    decimal strings, and the post title and post category when present. *)
Definition searched_fields (t : AdminTradesPage.TradeWithPostInfo) : list string :=
  [decimal (AdminTradesPage.id (AdminTradesPage.trade t))]
  ++ option_list (AdminTradesPage.postTitle t)
  ++ option_list (AdminTradesPage.postCategory t)
  ++ [decimal (AdminTradesPage.price (AdminTradesPage.trade t))].

(** The status filter is ALL or the record's status, and the search term is
    empty or occurs in one of the searched fields. *)
Definition passes (st : AdminTradesPage.State) (t : AdminTradesPage.TradeWithPostInfo)
  : Prop :=
  (AdminTradesPage.statusFilter st = "ALL"
   ∨ AdminTradesPage.statusFilter st = AdminTradesPage.status (AdminTradesPage.trade t))
  ∧ (AdminTradesPage.searchTerm st = ""
     ∨ ∃ f : string, f ∈ searched_fields t ∧ contains f (AdminTradesPage.searchTerm st)).

(** The enrichment of a list of trades: one entry per trade, in input order,
    each built from the way its own request settled. *)
Definition enriched_list (getTradeDetail : nat → Z → Api.DetailResult)
    (trades : list AdminTradesPage.Trade) : list AdminTradesPage.TradeWithPostInfo :=
  imap (λ i t, AdminTradesPage.withPostInfo t (getTradeDetail i (AdminTradesPage.id t)))
       trades.

End Described.

(** ** The page under user actions

    What the user and the enrichment can do to the page state: type in the
    search box, pick an option of the status select, click one of the four
    sortable headers, click a row, close the modal, and the enrichment storing
    its result. *)

Module AdminTradesView.

Inductive Action :=
| TypeSearch (s : string)
| SelectStatus (s : string)
| ClickHeader (key : string)
| ClickTrade (tradeId : Z)
| CloseModal
| Enriched (l : list AdminTradesPage.TradeWithPostInfo).

(** The actions the rendered page offers: the select has the five options and
    the table the four sortable headers. *)
Definition offered (a : Action) : Prop :=
  match a with
  | SelectStatus s => s ∈ AdminTradesPage.statusOptions
  | ClickHeader key => key ∈ AdminTradesPage.headerKeys
  | _ => True
  end.

Definition act (st : AdminTradesPage.State) (a : Action) : AdminTradesPage.State :=
  match a with
  | TypeSearch s => AdminTradesPage.setSearchTerm s st
  | SelectStatus s => AdminTradesPage.setStatusFilter s st
  | ClickHeader key => AdminTradesPage.sortHeaderClick key st
  | ClickTrade n => AdminTradesPage.handleTradeClick n st
  | CloseModal => AdminTradesPage.handleModalClose st
  | Enriched l => AdminTradesPage.setTradesWithPostInfo l st
  end.

Definition run (st : AdminTradesPage.State) (l : list Action) : AdminTradesPage.State :=
  foldl act st l.

End AdminTradesView.

(** ** The build configuration (next.config.ts) *)

Module NextConfig.


End NextConfig.
(** * Properties *)

(** ** Strings *)

(** Case analysis on the first string comparison of the goal. *)
Ltac case_eqb :=
  match goal with
  | |- context [String.eqb ?a ?b] =>
      destruct (String.eqb_spec a b) as [?|?]; subst; simpl
  end.

Lemma truthy_false (s : string) : JS.truthy s = false ↔ s = "".
Proof.
  unfold JS.truthy. destruct (String.eqb_spec s ""); simpl; split; congruence.
Qed.

Lemma truthy_true (s : string) : JS.truthy s = true ↔ s ≠ "".
Proof.
  unfold JS.truthy. destruct (String.eqb_spec s ""); simpl; split; congruence.
Qed.

Lemma Array_includes_spec (l : list string) (x : string) :
  JS.Array_includes l x = true ↔ x ∈ l.
Proof.
  unfold JS.Array_includes. rewrite existsb_exists, list_elem_of_In.
  split.
  - intros (y & Hy & Heq). apply String.eqb_eq in Heq. by subst.
  - intros Hx. exists x. split; [done | apply String.eqb_refl].
Qed.

(** ** Status and category labels *)

Lemma getStatusLabel_same (s : string) :
  TradeDetailModal.getStatusLabel s = AdminTradesPage.getStatusLabel s.
Proof. reflexivity. Qed.

Lemma getStatusLabel_other (s : string) :
  s ∉ statusCodes → AdminTradesPage.getStatusLabel s = s.
Proof.
  intros Hs. unfold AdminTradesPage.getStatusLabel.
  repeat case_eqb; try reflexivity; exfalso; apply Hs; unfold statusCodes; repeat constructor.
Qed.

(** C8. Both copies of [getStatusLabel] (table and modal) return a status
    string that is not one of REQUEST, ACCEPT, CANCELED, COMPLETED unchanged,
    and map each of the four codes to its fixed Korean label. *)
Theorem getStatusLabel_spec :
  (∀ s : string, s ∉ statusCodes →
     AdminTradesPage.getStatusLabel s = s ∧ TradeDetailModal.getStatusLabel s = s)
  ∧ map AdminTradesPage.getStatusLabel statusCodes
    = ["거래 요청"; "거래 수락"; "거래 취소"; "거래 완료"]
  ∧ map TradeDetailModal.getStatusLabel statusCodes
    = ["거래 요청"; "거래 수락"; "거래 취소"; "거래 완료"].
Proof.
  split; [| split; reflexivity].
  intros s Hs. split; [|rewrite (getStatusLabel_same s)]; by apply getStatusLabel_other.
Qed.

Lemma getStatusLabel_spec_witness :
  AdminTradesPage.getStatusLabel "PENDING" = "PENDING"
  ∧ TradeDetailModal.getStatusLabel "PENDING" = "PENDING".
Proof.
  apply (proj1 getStatusLabel_spec "PENDING").
  unfold statusCodes. rewrite list_elem_of_In. simpl. intuition discriminate.
Defined.

(** What [getCategoryLabel] returns, by cases on its argument. *)
Lemma getCategoryLabel_label (c : string) :
  c ∈ AdminTradesPage.koreanCategories → AdminTradesPage.getCategoryLabel c = c.
Proof.
  intros Hc. unfold AdminTradesPage.getCategoryLabel.
  apply Array_includes_spec in Hc. by rewrite Hc.
Qed.

Lemma getCategoryLabel_unknown (c : string) :
  c ∉ AdminTradesPage.koreanCategories → c ∉ categoryCodes →
  AdminTradesPage.getCategoryLabel c = if JS.truthy c then c else "기타".
Proof.
  intros Hk Hc. unfold AdminTradesPage.getCategoryLabel.
  destruct (JS.Array_includes _ c) eqn:Hin.
  { apply Array_includes_spec in Hin. contradiction. }
  repeat case_eqb; try reflexivity; exfalso; apply Hc; unfold categoryCodes; repeat constructor.
Qed.

Lemma getCategoryLabel_codes :
  map AdminTradesPage.getCategoryLabel categoryCodes = AdminTradesPage.koreanCategories.
Proof. reflexivity. Qed.

(** The label returned is a localized label, "기타", or the argument itself. *)
Lemma getCategoryLabel_range (c : string) :
  AdminTradesPage.getCategoryLabel c ∈ AdminTradesPage.koreanCategories
  ∨ (c = "" ∧ AdminTradesPage.getCategoryLabel c = "기타")
  ∨ AdminTradesPage.getCategoryLabel c = c.
Proof.
  unfold AdminTradesPage.getCategoryLabel.
  destruct (JS.Array_includes _ c) eqn:Hin; [by right; right|].
  unfold AdminTradesPage.koreanCategories.
  repeat case_eqb; try (left; by repeat constructor).
  destruct (JS.truthy c) eqn:Ht; [by right; right|].
  apply truthy_false in Ht. right; left. by subst.
Qed.

(** C5. [getCategoryLabel] is idempotent on every string, and each of the six
    localized labels maps to itself. *)
Theorem getCategoryLabel_idempotent :
  (∀ c : string,
     AdminTradesPage.getCategoryLabel (AdminTradesPage.getCategoryLabel c)
     = AdminTradesPage.getCategoryLabel c)
  ∧ map AdminTradesPage.getCategoryLabel AdminTradesPage.koreanCategories
    = AdminTradesPage.koreanCategories.
Proof.
  split; [|reflexivity].
  intros c. destruct (getCategoryLabel_range c) as [Hl | [[-> Hl] | Hl]].
  - by apply getCategoryLabel_label.
  - reflexivity.
  - by rewrite Hl.
Qed.

(** C3 (as stated, fails). A category that is neither a backend code nor a
    localized label is not turned into "기타": [getCategoryLabel] returns
    "PATENT" for "PATENT", and an enrichment whose fetched detail has no
    category gets "카테고리 없음". *)
Lemma category_other_counterexample :
  ("PATENT" ∉ categoryCodes)
  ∧ ("PATENT" ∉ AdminTradesPage.koreanCategories)
  ∧ AdminTradesPage.getCategoryLabel "PATENT" = "PATENT"
  ∧ AdminTradesPage.getCategoryLabel "PATENT" ≠ "기타"
  ∧ ∀ t : AdminTradesPage.Trade,
      AdminTradesPage.postCategory
        (AdminTradesPage.withPostInfo t (JS.Fulfilled {| Api.data := None |}))
      = Some "카테고리 없음".
Proof.
  split; [|split; [|split; [|split]]]; try reflexivity; try discriminate.
  - unfold categoryCodes. rewrite list_elem_of_In. simpl. intuition discriminate.
  - unfold AdminTradesPage.koreanCategories. rewrite list_elem_of_In. simpl.
    intuition discriminate.
Qed.

(** C3 (amended). On a string that is neither a backend code nor a localized
    label, [getCategoryLabel] returns "기타" when the string is empty and the
    string itself otherwise.  During enrichment an empty or missing category
    does not reach [getCategoryLabel]: the entry gets "카테고리 없음"; any other
    unrecognized category is kept as it is. *)
Theorem category_other_amended :
  (∀ c : string, c ∉ categoryCodes → c ∉ AdminTradesPage.koreanCategories →
     (c = "" → AdminTradesPage.getCategoryLabel c = "기타")
     ∧ (c ≠ "" → AdminTradesPage.getCategoryLabel c = c))
  ∧ (∀ (t : AdminTradesPage.Trade) (response : Api.DetailResponse),
       Api.data_postCategory response = None ∨ Api.data_postCategory response = Some "" →
       AdminTradesPage.postCategory (AdminTradesPage.withPostInfo t (JS.Fulfilled response))
       = Some "카테고리 없음")
  ∧ (∀ (t : AdminTradesPage.Trade) (response : Api.DetailResponse) (c : string),
       Api.data_postCategory response = Some c → c ≠ "" →
       c ∉ categoryCodes → c ∉ AdminTradesPage.koreanCategories →
       AdminTradesPage.postCategory (AdminTradesPage.withPostInfo t (JS.Fulfilled response))
       = Some c).
Proof.
  split; [|split].
  - intros c Hc Hk. rewrite getCategoryLabel_unknown by done. split.
    + by intros ->.
    + intros Hne. apply truthy_true in Hne. by rewrite Hne.
  - intros t response [H|H]; simpl; by rewrite H.
  - intros t response c H Hne Hc Hk. simpl. rewrite H. simpl.
    rewrite getCategoryLabel_unknown by done.
    apply truthy_true in Hne. by rewrite Hne.
Qed.

Lemma category_other_amended_witness :
  AdminTradesPage.getCategoryLabel "PATENT" = "PATENT"
  ∧ AdminTradesPage.postCategory
      (AdminTradesPage.withPostInfo (Sample.a_trade 1 100 "REQUEST")
         (Sample.fulfilled 1 (Some "A") (Some "")))
    = Some "카테고리 없음"
  ∧ AdminTradesPage.postCategory
      (AdminTradesPage.withPostInfo (Sample.a_trade 1 100 "REQUEST")
         (Sample.fulfilled 1 (Some "A") (Some "PATENT")))
    = Some "PATENT".
Proof.
  assert (Hc : "PATENT" ∉ categoryCodes).
  { unfold categoryCodes. rewrite list_elem_of_In. simpl. intuition discriminate. }
  assert (Hk : "PATENT" ∉ AdminTradesPage.koreanCategories).
  { unfold AdminTradesPage.koreanCategories. rewrite list_elem_of_In. simpl.
    intuition discriminate. }
  destruct category_other_amended as (H1 & H2 & H3).
  split; [|split].
  - apply (H1 "PATENT" Hc Hk). discriminate.
  - apply H2. right. reflexivity.
  - apply (H3 _ _ "PATENT"); [reflexivity | discriminate | exact Hc | exact Hk].
Defined.

(** ** Registration: validation before the request *)

Lemma register_handleSubmit_request (st : RegisterPage.State) :
  RegisterPage.issued_request (RegisterPage.handleSubmit st) = true
  ↔ RegisterPage.password (RegisterPage.formData st)
    = RegisterPage.confirmPassword (RegisterPage.formData st)
    ∧ RegisterPage.agree (RegisterPage.formData st) = true.
Proof.
  unfold RegisterPage.handleSubmit. simpl.
  destruct (String.eqb_spec (RegisterPage.password (RegisterPage.formData st))
              (RegisterPage.confirmPassword (RegisterPage.formData st))) as [He|He];
    simpl.
  - destruct (RegisterPage.agree (RegisterPage.formData st)); simpl; intuition congruence.
  - intuition congruence.
Qed.

(** C10. When the two password fields differ, or the agreement box is
    unchecked, the registration [handleSubmit] returns without issuing the
    signup request, with the loading flag cleared and the validation message
    of the first failed check as the error. *)
Theorem register_validation_blocks_request (st : RegisterPage.State) :
  let fd := RegisterPage.formData st in
  RegisterPage.password fd ≠ RegisterPage.confirmPassword fd
  ∨ RegisterPage.agree fd = false →
  RegisterPage.handleSubmit st
  = RegisterPage.Returned
      {| RegisterPage.formData := fd;
         RegisterPage.isLoading := false;
         RegisterPage.error :=
           if String.eqb (RegisterPage.password fd) (RegisterPage.confirmPassword fd)
           then "이용약관에 동의해주세요."
           else "비밀번호가 일치하지 않습니다." |}
  ∧ RegisterPage.issued_request (RegisterPage.handleSubmit st) = false.
Proof.
  intros fd H. unfold RegisterPage.handleSubmit. simpl. fold fd.
  destruct (String.eqb_spec (RegisterPage.password fd) (RegisterPage.confirmPassword fd))
    as [He|He]; simpl.
  - destruct H as [H|H]; [contradiction|]. rewrite H. simpl. split; reflexivity.
  - split; reflexivity.
Qed.

Lemma register_validation_blocks_request_witness :
  RegisterPage.handleSubmit
    {| RegisterPage.formData :=
         {| RegisterPage.name := "kim"; RegisterPage.email := "kim@example.com";
            RegisterPage.password := "abc123"; RegisterPage.confirmPassword := "abc124";
            RegisterPage.agree := true |};
       RegisterPage.isLoading := false; RegisterPage.error := "" |}
  = RegisterPage.Returned
      {| RegisterPage.formData :=
           {| RegisterPage.name := "kim"; RegisterPage.email := "kim@example.com";
              RegisterPage.password := "abc123"; RegisterPage.confirmPassword := "abc124";
              RegisterPage.agree := true |};
         RegisterPage.isLoading := false;
         RegisterPage.error := "비밀번호가 일치하지 않습니다." |}.
Proof.
  refine (proj1 (register_validation_blocks_request _ _)).
  left. simpl. discriminate.
Defined.

(** ** Login: the message for a failed attempt *)

Lemma catch_message_no_message (e : Api.ApiError) :
  JS.truthy_opt (Api.response_data_message e) = false →
  LoginPage.catch_message e =
    match Api.response_status e with
    | Some 401 | Some 400 =>
        "이메일 혹은 비밀번호를 잘못 입력하셨거나 등록되지 않은 계정입니다."
    | Some 403 =>
        match Api.response_data_resultCode e with
        | Some rc =>
            if String.eqb rc "403-1" then "탈퇴한 계정입니다. 새로운 계정으로 가입해주세요."
            else if String.eqb rc "403-2"
            then "관리자에 의해 정지된 계정입니다. 관리자에게 문의 바랍니다."
            else "접근 권한이 없습니다."
        | None => "접근 권한이 없습니다."
        end
    | Some 500 => "서버 오류가 발생했습니다. 잠시 후 다시 시도해주세요."
    | _ =>
        if Api.err_request e
        then "서버 연결에 실패했습니다. 네트워크 연결을 확인해주세요."
        else "로그인 중 오류가 발생했습니다. 다시 시도해주세요."
    end.
Proof.
  intros Hm. unfold LoginPage.catch_message. rewrite Hm.
  repeat case_bool_decide; simplify_eq.
  all: repeat match goal with H : _ = Some _ |- _ => rewrite H end; try reflexivity.
  all: try (rewrite ?String.eqb_refl; reflexivity).
  - destruct (Api.response_data_resultCode e) as [rc|]; [|reflexivity].
    destruct (String.eqb_spec rc "403-1"); [congruence|].
    destruct (String.eqb_spec rc "403-2"); [congruence|]. reflexivity.
  - destruct (Api.response_status e) as [z|]; [|reflexivity].
    destruct z as [|p|p]; try reflexivity.
    do 10 (try destruct p as [p|p|]; try reflexivity; try congruence).
Qed.

(** C7. A failed login whose response payload carries no message gets its
    error message from the status code alone: 401 and 400 give the
    credential-mismatch message; 403 gives the deactivated-account message for
    result code 403-1, the suspended-account message for 403-2 and the
    no-permission message for any other result code; 500 gives the
    server-error message.  The loading flag is cleared. *)
Theorem login_status_fallback (st : LoginPage.State) (e : Api.ApiError) :
  Api.response_data_message e = None →
  let st' := (LoginPage.handleSubmit_settled (JS.Rejected e) st).1 in
  let resultCode := Api.response_data_resultCode e in
  LoginPage.isLoading st' = false
  ∧ (Api.response_status e = Some 401 ∨ Api.response_status e = Some 400 →
     LoginPage.error st'
     = "이메일 혹은 비밀번호를 잘못 입력하셨거나 등록되지 않은 계정입니다.")
  ∧ (Api.response_status e = Some 403 →
     (resultCode = Some "403-1" →
      LoginPage.error st' = "탈퇴한 계정입니다. 새로운 계정으로 가입해주세요.")
     ∧ (resultCode = Some "403-2" →
        LoginPage.error st' = "관리자에 의해 정지된 계정입니다. 관리자에게 문의 바랍니다.")
     ∧ (resultCode ≠ Some "403-1" → resultCode ≠ Some "403-2" →
        LoginPage.error st' = "접근 권한이 없습니다."))
  ∧ (Api.response_status e = Some 500 →
     LoginPage.error st' = "서버 오류가 발생했습니다. 잠시 후 다시 시도해주세요.").
Proof.
  intros Hm st' resultCode. subst st' resultCode. simpl.
  rewrite catch_message_no_message by (by rewrite Hm).
  split; [reflexivity|]. split; [|split].
  - intros [-> | ->]; reflexivity.
  - intros ->. split; [|split].
    + intros ->. reflexivity.
    + intros ->. reflexivity.
    + intros H1 H2. destruct (Api.response_data_resultCode e) as [rc|]; [|reflexivity].
      destruct (String.eqb_spec rc "403-1"); [congruence|].
      destruct (String.eqb_spec rc "403-2"); [congruence|]. reflexivity.
  - intros ->. reflexivity.
Qed.

Lemma login_status_fallback_witness :
  LoginPage.error
    (LoginPage.handleSubmit_settled
       (JS.Rejected (Sample.status_only 403 (Some "403-2")))
       {| LoginPage.formData := {| LoginPage.email := "kim@example.com";
                                   LoginPage.password := "abc123" |};
          LoginPage.isLoading := true; LoginPage.error := "" |}).1
  = "관리자에 의해 정지된 계정입니다. 관리자에게 문의 바랍니다."
  ∧ LoginPage.error
      (LoginPage.handleSubmit_settled
         (JS.Rejected (Sample.status_only 401 None))
         {| LoginPage.formData := {| LoginPage.email := "kim@example.com";
                                     LoginPage.password := "abc123" |};
            LoginPage.isLoading := true; LoginPage.error := "" |}).1
    = "이메일 혹은 비밀번호를 잘못 입력하셨거나 등록되지 않은 계정입니다.".
Proof.
  split.
  - refine (proj1 (proj2 (proj1 (proj2 (proj2
      (login_status_fallback _ (Sample.status_only 403 (Some "403-2")) _))) _)) _);
      reflexivity.
  - refine (proj1 (proj2 (login_status_fallback _ (Sample.status_only 401 None) _)) _);
      [reflexivity | left; reflexivity].
Defined.

(** ** The modal: closing *)

(** [handleClose] leaves the modal with no loaded trade and no error and
    calls the parent's [onClose]; [handleBackdropClick], called for a click on
    the backdrop itself, runs [handleClose].  On the admin page, closing an
    open modal through a close button discards the modal instance, and the
    next open starts from an instance with no trade and no error. *)
Lemma handleClose_resets :
  (∀ st : TradeDetailModal.State,
     TradeDetailModal.trade (TradeDetailModal.handleClose st).1 = None
     ∧ TradeDetailModal.error (TradeDetailModal.handleClose st).1 = None
     ∧ (TradeDetailModal.handleClose st).2 = [TradeDetailModal.OnClose])
  ∧ (∀ st : TradeDetailModal.State,
       TradeDetailModal.handleBackdropClick true st = TradeDetailModal.handleClose st)
  ∧ (∀ (a : AdminTradesApp.App) (m : AdminTradesApp.Mounted),
       AdminTradesApp.modal a = Some m →
       TradeDetailModal.isOpen (AdminTradesApp.props m) = true →
       let a' := AdminTradesApp.step a AdminTradesApp.CloseClick in
       AdminTradesApp.modal a' = None
       ∧ AdminTradesApp.view a' = TradeDetailModal.Hidden
       ∧ ∀ n : Z, n ≠ 0 →
           ∃ m' : AdminTradesApp.Mounted,
             AdminTradesApp.modal (AdminTradesApp.step a' (AdminTradesApp.TradeClick n))
             = Some m'
             ∧ TradeDetailModal.trade (AdminTradesApp.mstate m') = None
             ∧ TradeDetailModal.error (AdminTradesApp.mstate m') = None).
Proof.
  split; [|split].
  - intros st. simpl. auto.
  - reflexivity.
  - intros a m Hm Hopen. simpl. rewrite Hm, Hopen. simpl.
    split; [reflexivity|]. split; [reflexivity|].
    intros n Hn. unfold AdminTradesApp.rerender, AdminTradesApp.modal_props. simpl.
    apply Z.eqb_neq in Hn. rewrite Hn. simpl.
    unfold TradeDetailModal.after_render, TradeDetailModal.open_effect,
      TradeDetailModal.fetchTradeDetail. simpl.
    rewrite Hn. simpl. eexists. split; [reflexivity|]. simpl. auto.
Qed.

Lemma handleClose_resets_witness :
  let a := AdminTradesApp.run AdminTradesApp.initial
             [AdminTradesApp.TradeClick 5;
              AdminTradesApp.Settle 0 (Sample.fulfilled 5 (Some "A") (Some "PRODUCT"))] in
  AdminTradesApp.view a
  = TradeDetailModal.Detail (Sample.a_detail 5 (Some "A") (Some "PRODUCT"))
  ∧ AdminTradesApp.modal (AdminTradesApp.step a AdminTradesApp.CloseClick) = None.
Proof.
  split; [reflexivity|].
  refine (proj1 (proj2 (proj2 handleClose_resets) _ _ _ _)); reflexivity.
Defined.

(** C9. The places of the open modal whose click runs [handleClose] are the
    close icon and the footer button, and a click on either leaves the modal
    with no loaded trade and no error and calls [onClose].  A click on the
    backdrop does not close the modal: [handleBackdropClick], which would run
    [handleClose], is the [onClick] of no element, so the click runs no
    handler, [onClose] is not called, and an open modal showing a loaded
    trade, or an error, still shows it afterwards. *)
Theorem backdrop_click_keeps_modal_open :
  (∀ el : TradeDetailModal.Element,
     TradeDetailModal.onClick el = Some TradeDetailModal.HandleClose
     ↔ el = TradeDetailModal.CloseIcon ∨ el = TradeDetailModal.CloseButton)
  ∧ (∀ (el : TradeDetailModal.Element) (p : TradeDetailModal.Props)
       (st : TradeDetailModal.State),
       TradeDetailModal.isOpen p = true →
       TradeDetailModal.onClick el = Some TradeDetailModal.HandleClose →
       TradeDetailModal.click el p st
       = ({| TradeDetailModal.trade := None;
             TradeDetailModal.isLoading := TradeDetailModal.isLoading st;
             TradeDetailModal.error := None |},
          [TradeDetailModal.OnClose], None))
  ∧ (∀ st : TradeDetailModal.State,
       TradeDetailModal.handleBackdropClick true st
       = ({| TradeDetailModal.trade := None;
             TradeDetailModal.isLoading := TradeDetailModal.isLoading st;
             TradeDetailModal.error := None |},
          [TradeDetailModal.OnClose]))
  ∧ (∀ (p : TradeDetailModal.Props) (st : TradeDetailModal.State),
       TradeDetailModal.click TradeDetailModal.Backdrop p st = (st, [], None))
  ∧ (∀ (p : TradeDetailModal.Props) (d : Api.TradeDetail),
       TradeDetailModal.isOpen p = true →
       let st := {| TradeDetailModal.trade := Some d;
                    TradeDetailModal.isLoading := false;
                    TradeDetailModal.error := None |} in
       let after := TradeDetailModal.click TradeDetailModal.Backdrop p st in
       TradeDetailModal.trade after.1.1 = Some d
       ∧ after.1.2 = []
       ∧ TradeDetailModal.render p after.1.1 = TradeDetailModal.Detail d)
  ∧ (∀ (p : TradeDetailModal.Props) (msg : string),
       TradeDetailModal.isOpen p = true → msg ≠ "" →
       let st := {| TradeDetailModal.trade := None;
                    TradeDetailModal.isLoading := false;
                    TradeDetailModal.error := Some msg |} in
       let after := TradeDetailModal.click TradeDetailModal.Backdrop p st in
       TradeDetailModal.error after.1.1 = Some msg
       ∧ after.1.2 = []
       ∧ TradeDetailModal.render p after.1.1 = TradeDetailModal.ErrorPanel msg).
Proof.
  split; [|split; [|split; [|split; [|split]]]].
  - intros el. split.
    + destruct el; simpl; intros H; try discriminate H; auto.
    + intros [-> | ->]; reflexivity.
  - intros el p st Hopen Hel. unfold TradeDetailModal.click.
    assert (Hr : TradeDetailModal.rendered p st el = true).
    { unfold TradeDetailModal.rendered, TradeDetailModal.render. rewrite Hopen. simpl.
      destruct el; try discriminate Hel;
        destruct (TradeDetailModal.isLoading st); try reflexivity;
        destruct (JS.truthy_opt (TradeDetailModal.error st)); try reflexivity;
        destruct (TradeDetailModal.trade st); reflexivity. }
    rewrite Hr, Hel. reflexivity.
  - reflexivity.
  - intros p st. unfold TradeDetailModal.click. simpl.
    destruct (TradeDetailModal.rendered p st TradeDetailModal.Backdrop); reflexivity.
  - intros p d Hopen. unfold TradeDetailModal.click, TradeDetailModal.rendered,
      TradeDetailModal.render. simpl. rewrite Hopen. simpl. auto.
  - intros p msg Hopen Hmsg%truthy_true.
    unfold TradeDetailModal.click, TradeDetailModal.rendered,
      TradeDetailModal.render. simpl. rewrite Hopen. simpl. rewrite Hmsg. simpl.
    rewrite Hmsg. auto.
Qed.

Lemma backdrop_click_keeps_modal_open_witness :
  let p := {| TradeDetailModal.isOpen := true; TradeDetailModal.tradeId := 5 |} in
  let d := Sample.a_detail 5 (Some "A") (Some "PRODUCT") in
  let st := {| TradeDetailModal.trade := Some d;
               TradeDetailModal.isLoading := false;
               TradeDetailModal.error := None |} in
  TradeDetailModal.render p (TradeDetailModal.click TradeDetailModal.Backdrop p st).1.1
  = TradeDetailModal.Detail d
  ∧ TradeDetailModal.click TradeDetailModal.CloseButton p st
    = (TradeDetailModal.initial, [TradeDetailModal.OnClose], None).
Proof.
  intros p d st. split.
  - apply (proj1 (proj2 (proj2 (proj2 (proj2 backdrop_click_keeps_modal_open)))) p d).
    reflexivity.
  - apply (proj1 (proj2 backdrop_click_keeps_modal_open)
             TradeDetailModal.CloseButton p st); reflexivity.
Defined.

(** ** Substrings *)

Lemma append_nil (s : string) : "" +:+ s = s.
Proof. reflexivity. Qed.

Lemma append_cons (a : Ascii.ascii) (s t : string) :
  String a s +:+ t = String a (s +:+ t).
Proof. reflexivity. Qed.

Lemma prefix_spec (t s : string) :
  String.prefix t s = true ↔ ∃ q : string, s = t +:+ q.
Proof.
  revert s. induction t as [|a t IH]; intros s.
  - split; [intros _; by exists s | intros _; by destruct s].
  - destruct s as [|b s]; simpl.
    + split; [done | intros [q Hq]; discriminate Hq].
    + destruct (Ascii.ascii_dec a b) as [->|Hne].
      * rewrite IH. split; intros [q Hq]; exists q; rewrite append_cons in *; congruence.
      * split; [done | intros [q Hq]; rewrite append_cons in Hq; congruence].
Qed.

Lemma includes_spec (s t : string) :
  JS.includes s t = true ↔ Described.contains s t.
Proof.
  unfold Described.contains. induction s as [|a s IH]; cbn [JS.includes].
  - rewrite orb_false_r, prefix_spec. split.
    + intros [q Hq]. by exists "", q.
    + intros (p & q & Hpq). destruct p; [by exists q|discriminate Hpq].
  - rewrite orb_true_iff, prefix_spec, IH. split.
    + intros [[q Hq] | (p & q & Hpq)].
      * by exists "", q.
      * exists (String a p), q. by rewrite append_cons, Hpq.
    + intros (p & q & Hpq). destruct p as [|b p].
      * left. by exists q.
      * right. exists p, q. rewrite append_cons in Hpq. congruence.
Qed.

Lemma includes_empty (s : string) : JS.includes s "" = true.
Proof. apply includes_spec. by exists "", s. Qed.

(** The comparison distinguishes upper and lower case. *)
Example includes_case_sensitive :
  JS.includes "Patent 12" "Patent" = true ∧ JS.includes "Patent 12" "patent" = false.
Proof. split; reflexivity. Qed.

Lemma contains_nonempty (s t : string) : Described.contains s t → t ≠ "" → s ≠ "".
Proof.
  intros (p & q & ->) Ht Hs. destruct p; [|discriminate Hs].
  destruct t; [done | discriminate Hs].
Qed.

(** ** Decimal strings *)

Lemma digit_char (d : N) : (d < 10)%N → pretty_N_char d = Described.digit d.
Proof.
  intros Hd. destruct d as [|p]; [reflexivity|].
  do 4 (destruct p as [p|p|]; try reflexivity; try lia).
Qed.

Lemma digit_value_digit (d : N) :
  (d < 10)%N → Described.digit_value (Described.digit d) = Some (Z.of_N d).
Proof.
  intros Hd. destruct d as [|p]; [reflexivity|].
  do 4 (destruct p as [p|p|]; try reflexivity; try lia).
Qed.

(** The digits written here are the ones [Number_toString] prints. *)
Lemma digits_pretty (fuel : nat) (n : N) (acc : string) :
  (n < 2 ^ N.of_nat fuel)%N → Described.digits fuel n acc = pretty_N_go n acc.
Proof.
  revert n acc. induction fuel as [|fuel IH]; intros n acc Hn.
  - simpl in *. assert (n = 0%N) as -> by lia. by rewrite pretty_N_go_0.
  - cbn [Described.digits]. destruct (N.eqb_spec n 0) as [->|Hne].
    + by rewrite pretty_N_go_0.
    + rewrite pretty_N_go_step by lia.
      rewrite digit_char by (apply N.mod_lt; lia).
      apply IH. rewrite Nat2N.inj_succ, N.pow_succ_r' in Hn.
      apply N.Div0.div_lt_upper_bound. lia.
Qed.

Lemma Number_toString_decimal (z : Z) : JS.Number_toString z = Described.decimal z.
Proof.
  assert (Hn : ∀ p, pretty (Npos p) = Described.numeral (Npos p)).
  { intros p. unfold pretty, pretty_N, Described.numeral.
    rewrite decide_False by done. simpl (N.eqb _ _).
    symmetry. apply digits_pretty. rewrite N2Nat.id. apply N.size_gt. }
  unfold JS.Number_toString, pretty, pretty_Z, Described.decimal.
  destruct z as [|p|p]; [done | apply Hn | by rewrite <- Hn].
Qed.

(** Read back, the digits written give the number: a string of digits before
    them is shifted by as many places as there are digits. *)
Lemma digits_value (fuel : nat) (n : N) (acc : string) :
  (n < 2 ^ N.of_nat fuel)%N →
  ∃ k : Z, 0 ≤ k ∧ ∀ a : Z,
    Described.numeral_value a (Described.digits fuel n acc)
    = Described.numeral_value (a * 10 ^ k + Z.of_N n) acc.
Proof.
  revert n acc. induction fuel as [|fuel IH]; intros n acc Hn.
  - simpl in *. assert (n = 0%N) as -> by lia.
    exists 0. split; [done|]. intros a. f_equal. simpl. lia.
  - cbn [Described.digits]. destruct (N.eqb_spec n 0) as [->|Hne].
    + exists 0. split; [done|]. intros a. f_equal. simpl. lia.
    + destruct (IH (n `div` 10)%N (String (Described.digit (n `mod` 10)%N) acc))
        as (k & Hk & Hval).
      { rewrite Nat2N.inj_succ, N.pow_succ_r' in Hn.
        apply N.Div0.div_lt_upper_bound. lia. }
      exists (k + 1). split; [lia|]. intros a. rewrite Hval.
      cbn [Described.numeral_value].
      rewrite digit_value_digit by (apply N.mod_lt; lia). f_equal.
      rewrite Z.pow_add_r, Z.pow_1_r by lia.
      pose proof (N.div_mod n 10 ltac:(lia)) as Hdm.
      rewrite N2Z.inj_div, N2Z.inj_mod. 
      pose proof (Z.div_mod (Z.of_N n) 10 ltac:(lia)). simpl (Z.of_N 10). lia.
Qed.

Lemma numeral_value_numeral (p : positive) :
  Described.numeral (Npos p) ≠ ""
  ∧ Described.numeral_value 0 (Described.numeral (Npos p)) = Some (Zpos p).
Proof.
  unfold Described.numeral. simpl (N.eqb _ _). cbv iota.
  destruct (digits_value (N.to_nat (N.size (Npos p))) (Npos p) "") as (k & _ & Hval).
  { rewrite N2Nat.id. apply N.size_gt. }
  split.
  - intros Hempty. specialize (Hval 0). rewrite Hempty in Hval. simpl in Hval.
    injection Hval as Hval. lia.
  - rewrite Hval. simpl. reflexivity.
Qed.

(** The decimal string of an integer reads back as that integer. *)
Lemma decimal_value_decimal (z : Z) :
  Described.decimal_value (Described.decimal z) = Some z.
Proof.
  destruct z as [|p|p]; [reflexivity| |].
  - destruct (numeral_value_numeral p) as [Hne Hval]. simpl.
    destruct (Described.numeral (N.pos p)) as [|c s] eqn:Hs; [done|].
    unfold Described.decimal_value.
    destruct (Described.is_minus c) eqn:Hc; [|done].
    exfalso. simpl in Hval. unfold Described.digit_value in Hval.
    unfold Described.is_minus in Hc. apply N.eqb_eq in Hc. rewrite Hc in Hval.
    discriminate Hval.
  - destruct (numeral_value_numeral p) as [Hne Hval].
    assert (Hm : ∀ c s, Described.decimal_value ("-" +:+ String c s)
                        = option_map Z.opp (Described.numeral_value 0 (String c s)))
      by reflexivity.
    unfold Described.decimal.
    destruct (Described.numeral (N.pos p)) as [|c s] eqn:Hs; [done|].
    rewrite Hm, Hval. reflexivity.
Qed.

(** What the page prints for an identifier or a price reads back as that
    number, so two of them print alike only if they are equal. *)
Lemma Number_toString_value (z : Z) :
  Described.decimal_value (JS.Number_toString z) = Some z.
Proof. rewrite Number_toString_decimal. apply decimal_value_decimal. Qed.

Example decimal_samples :
  map Described.decimal [0; 7; 10; 300; 1305; -42; JS.MAX_SAFE_INTEGER]
  = ["0"; "7"; "10"; "300"; "1305"; "-42"; "9007199254740991"].
Proof. vm_compute. reflexivity. Qed.

(** ** The filter of the trade table *)

Lemma field_includes_spec (o : option string) (term : string) :
  term ≠ "" →
  AdminTradesPage.field_includes o term = true
  ↔ ∃ f : string, f ∈ option_list o ∧ Described.contains f term.
Proof.
  intros Hterm. destruct o as [s|]; simpl.
  - rewrite andb_true_iff, includes_spec, truthy_true. split.
    + intros [_ Hc]. exists s. split; [by left | done].
    + intros (f & Hf & Hc). apply list_elem_of_singleton in Hf as ->.
      split; [by eapply contains_nonempty | done].
  - split; [done | intros (f & Hf & _); by apply elem_of_nil in Hf].
Qed.

Lemma matchesSearch_spec (st : AdminTradesPage.State) (t : AdminTradesPage.TradeWithPostInfo) :
  AdminTradesPage.matchesSearch st t = true
  ↔ AdminTradesPage.searchTerm st = ""
    ∨ ∃ f : string, f ∈ Described.searched_fields t
                    ∧ Described.contains f (AdminTradesPage.searchTerm st).
Proof.
  unfold AdminTradesPage.matchesSearch.
  destruct (decide (AdminTradesPage.searchTerm st = "")) as [He|Hne].
  - rewrite He, includes_empty. simpl. intuition.
  - rewrite !orb_true_iff, !includes_spec, !field_includes_spec by done.
    rewrite !Number_toString_decimal.
    unfold Described.searched_fields. split.
    + intros H. right.
      destruct H as [[[H | (f & Hf & H)] | (f & Hf & H)] | H].
      * eexists. split; [|exact H]. rewrite !elem_of_app, !list_elem_of_singleton. auto.
      * exists f. split; [|exact H]. rewrite !elem_of_app. auto.
      * exists f. split; [|exact H]. rewrite !elem_of_app. auto.
      * eexists. split; [|exact H]. rewrite !elem_of_app, !list_elem_of_singleton. auto.
    + intros [He | (f & Hf & H)]; [done|].
      rewrite !elem_of_app, !list_elem_of_singleton in Hf.
      destruct Hf as [-> | [Hf | [Hf | ->]]]; eauto 6.
Qed.

Lemma matchesStatus_spec (st : AdminTradesPage.State) (t : AdminTradesPage.TradeWithPostInfo) :
  AdminTradesPage.matchesStatus st t = true
  ↔ AdminTradesPage.statusFilter st = "ALL"
    ∨ AdminTradesPage.statusFilter st = AdminTradesPage.status (AdminTradesPage.trade t).
Proof.
  unfold AdminTradesPage.matchesStatus.
  rewrite orb_true_iff, !String.eqb_eq. intuition.
Qed.

Lemma filter_sublist {A} (f : A → bool) (l : list A) : sublist (List.filter f l) l.
Proof.
  induction l as [|x l IH]; simpl; [constructor|].
  destruct (f x); by constructor.
Qed.

Lemma filter_passes (st : AdminTradesPage.State) (t : AdminTradesPage.TradeWithPostInfo) :
  AdminTradesPage.matchesSearch st t && AdminTradesPage.matchesStatus st t = true
  ↔ Described.passes st t.
Proof.
  unfold Described.passes.
  rewrite andb_true_iff, matchesSearch_spec, matchesStatus_spec. intuition.
Qed.

(** C4. For records whose identifier and price are safe integers, a record
    of the enriched list is in [filteredTrades] exactly when the status filter
    is ALL or equals its status, and the search term is empty or occurs, as a
    case-sensitive substring, in its identifier written in decimal, its post
    title, its post category or its price written in decimal.  The decimal
    string of such a number is the one that reads back as the number, and it
    is what the page searches in.  The output keeps the order of the input.
    With status filter ACCEPT and an empty search term, four records with
    statuses REQUEST, ACCEPT, ACCEPT, COMPLETED give the two ACCEPT records in
    input order. *)
Theorem filteredTrades_spec :
  (∀ (st : AdminTradesPage.State) (t : AdminTradesPage.TradeWithPostInfo),
     Described.safe_numbers t →
     (t ∈ AdminTradesPage.filteredTrades st
      ↔ t ∈ AdminTradesPage.tradesWithPostInfo st ∧ Described.passes st t))
  ∧ (∀ n : Z, JS.isSafeInteger n = true →
       Described.decimal_value (Described.decimal n) = Some n
       ∧ JS.Number_toString n = Described.decimal n)
  ∧ (∀ st : AdminTradesPage.State,
       sublist (AdminTradesPage.filteredTrades st) (AdminTradesPage.tradesWithPostInfo st))
  ∧ (∀ (st : AdminTradesPage.State) (t1 t2 t3 t4 : AdminTradesPage.TradeWithPostInfo),
       AdminTradesPage.statusFilter st = "ACCEPT" →
       AdminTradesPage.searchTerm st = "" →
       AdminTradesPage.tradesWithPostInfo st = [t1; t2; t3; t4] →
       map (λ t, AdminTradesPage.status (AdminTradesPage.trade t)) [t1; t2; t3; t4]
       = ["REQUEST"; "ACCEPT"; "ACCEPT"; "COMPLETED"] →
       AdminTradesPage.filteredTrades st = [t2; t3]).
Proof.
  split; [|split; [|split]].
  - intros st t _. unfold AdminTradesPage.filteredTrades.
    rewrite list_elem_of_In, filter_In, <- list_elem_of_In, filter_passes. done.
  - intros n _. split; [apply decimal_value_decimal | apply Number_toString_decimal].
  - intros st. apply filter_sublist.
  - intros st t1 t2 t3 t4 Hf Hs Hl Hst. unfold AdminTradesPage.filteredTrades.
    rewrite Hl. injection Hst as H1 H2 H3 H4.
    unfold AdminTradesPage.matchesSearch, AdminTradesPage.matchesStatus. simpl.
    rewrite Hs, Hf, H1, H2, H3, H4, !includes_empty. reflexivity.
Qed.

Lemma filteredTrades_spec_witness :
  let rows := [Sample.an_enriched 1 300 "REQUEST" "A" "물건발명";
               Sample.an_enriched 2 100 "ACCEPT" "B" "상표권";
               Sample.an_enriched 13 200 "ACCEPT" "C" "저작권";
               Sample.an_enriched 4 400 "COMPLETED" "D" "기타"] in
  Described.safe_numbers (Sample.an_enriched 13 200 "ACCEPT" "C" "저작권")
  ∧ Sample.an_enriched 13 200 "ACCEPT" "C" "저작권"
    ∈ AdminTradesPage.filteredTrades
        (Sample.a_table rows "3" "ALL" "createdAt" AdminTradesPage.desc)
  ∧ Described.decimal_value (Described.decimal 13) = Some 13
  ∧ AdminTradesPage.filteredTrades
      (Sample.a_table rows "" "ACCEPT" "createdAt" AdminTradesPage.desc)
    = [Sample.an_enriched 2 100 "ACCEPT" "B" "상표권";
       Sample.an_enriched 13 200 "ACCEPT" "C" "저작권"].
Proof.
  intros rows.
  assert (Hsafe : Described.safe_numbers (Sample.an_enriched 13 200 "ACCEPT" "C" "저작권"))
    by (split; reflexivity).
  split; [exact Hsafe|]. split; [|split].
  - apply (proj1 filteredTrades_spec
             (Sample.a_table rows "3" "ALL" "createdAt" AdminTradesPage.desc)
             (Sample.an_enriched 13 200 "ACCEPT" "C" "저작권") Hsafe).
    split.
    + do 2 right. left.
    + split; [left; reflexivity|]. right. exists "13". split; [left|].
      exists "1", "". reflexivity.
  - apply (proj1 (proj2 filteredTrades_spec) 13). reflexivity.
  - refine (proj2 (proj2 (proj2 filteredTrades_spec)) _ _ _ _ _ _ _ _ _); reflexivity.
Defined.

Example filteredTrades_search :
  AdminTradesPage.filteredTrades
    (Sample.a_table
       [Sample.an_enriched 1 300 "REQUEST" "A" "물건발명";
        Sample.an_enriched 2 100 "ACCEPT" "B" "상표권";
        Sample.an_enriched 13 200 "ACCEPT" "C" "저작권";
        Sample.an_enriched 4 400 "COMPLETED" "D" "기타"]
       "3" "ALL" "createdAt" AdminTradesPage.desc)
  = [Sample.an_enriched 1 300 "REQUEST" "A" "물건발명";
     Sample.an_enriched 13 200 "ACCEPT" "C" "저작권"].
Proof. vm_compute. reflexivity. Qed.

(** ** Sorting the trade table *)

(** Whatever the comparator, the sort rearranges its input. *)
Lemma sort_insert_perm {A} (cmp : A → A → Z) (x : A) (l : list A) :
  JS.sort_insert cmp x l ≡ₚ x :: l.
Proof.
  induction l as [|y l IH]; simpl; [done|].
  destruct (cmp x y <? 0); [done|]. by rewrite IH, Permutation_swap.
Qed.


Section Sorting.

Variable Date_getTime : string → option Z.
Variable str_lt : string → string → bool.

Lemma compareTrades_price (st : AdminTradesPage.State)
    (a b : AdminTradesPage.TradeWithPostInfo) :
  AdminTradesPage.sortBy st = "price" →
  AdminTradesPage.compareTrades Date_getTime str_lt st a b
  = match AdminTradesPage.sortOrder st with
    | AdminTradesPage.asc =>
        if AdminTradesPage.price (AdminTradesPage.trade b)
           <? AdminTradesPage.price (AdminTradesPage.trade a) then 1 else -1
    | AdminTradesPage.desc =>
        if AdminTradesPage.price (AdminTradesPage.trade a)
           <? AdminTradesPage.price (AdminTradesPage.trade b) then 1 else -1
    end.
Proof.
  intros Hk. unfold AdminTradesPage.compareTrades, AdminTradesPage.sortValue.
  rewrite Hk. reflexivity.
Qed.

(** C6. With sort key price, three trades with prices 300, 100, 200 come out
    of [sortedTrades] in the order 100, 200, 300 when the direction is
    ascending and 300, 200, 100 when it is descending. *)
Theorem sortedTrades_by_price (st : AdminTradesPage.State)
    (t1 t2 t3 : AdminTradesPage.TradeWithPostInfo) :
  AdminTradesPage.sortBy st = "price" →
  AdminTradesPage.filteredTrades st = [t1; t2; t3] →
  map (λ t, AdminTradesPage.price (AdminTradesPage.trade t)) [t1; t2; t3]
  = [300; 100; 200] →
  (AdminTradesPage.sortOrder st = AdminTradesPage.asc →
   AdminTradesPage.sortedTrades Date_getTime str_lt st = [t2; t3; t1])
  ∧ (AdminTradesPage.sortOrder st = AdminTradesPage.desc →
     AdminTradesPage.sortedTrades Date_getTime str_lt st = [t1; t3; t2]).
Proof.
  intros Hk Hl Hp. injection Hp as H1 H2 H3.
  unfold AdminTradesPage.sortedTrades, JS.Array_sort. rewrite Hl. simpl.
  split; intros Ho; rewrite !compareTrades_price by done;
    rewrite Ho, ?H1, ?H2, ?H3; simpl;
    rewrite !compareTrades_price by done;
    rewrite Ho, ?H1, ?H2, ?H3; simpl;
    rewrite ?compareTrades_price by done;
    rewrite ?Ho, ?H1, ?H2, ?H3; reflexivity.
Qed.

(** The order of the three trades does not depend on the sorting procedure:
    it is the only rearrangement that is in order for the comparator. *)
Lemma price_order_unique (st : AdminTradesPage.State)
    (t1 t2 t3 : AdminTradesPage.TradeWithPostInfo)
    (l : list AdminTradesPage.TradeWithPostInfo) :
  AdminTradesPage.sortBy st = "price" →
  map (λ t, AdminTradesPage.price (AdminTradesPage.trade t)) [t1; t2; t3]
  = [300; 100; 200] →
  l ≡ₚ [t1; t2; t3] →
  JS.in_order (AdminTradesPage.compareTrades Date_getTime str_lt st) l →
  l = match AdminTradesPage.sortOrder st with
      | AdminTradesPage.asc => [t2; t3; t1]
      | AdminTradesPage.desc => [t1; t3; t2]
      end.
Proof.
  intros Hk Hp Hperm Hord. injection Hp as H1 H2 H3.
  unfold JS.in_order in Hord.
  set (R := λ x y, AdminTradesPage.compareTrades Date_getTime str_lt st x y ≤ 0) in *.
  assert (Hcmp : ∀ a b, R a b ↔
            match AdminTradesPage.sortOrder st with
            | AdminTradesPage.asc =>
                AdminTradesPage.price (AdminTradesPage.trade a)
                ≤ AdminTradesPage.price (AdminTradesPage.trade b)
            | AdminTradesPage.desc =>
                AdminTradesPage.price (AdminTradesPage.trade b)
                ≤ AdminTradesPage.price (AdminTradesPage.trade a)
            end).
  { intros a b. unfold R. rewrite compareTrades_price by done.
    destruct (AdminTradesPage.sortOrder st); case_match; lia. }
  assert (Hin : ∀ x, x ∈ [t1; t2; t3] → x = t1 ∨ x = t2 ∨ x = t3).
  { intros x Hx. rewrite list_elem_of_In in Hx. simpl in Hx. intuition. }
  assert (Hdistinct : ∀ x1 x2, x1 ∈ [t1; t2; t3] → x2 ∈ [t1; t2; t3] →
            AdminTradesPage.price (AdminTradesPage.trade x1)
            = AdminTradesPage.price (AdminTradesPage.trade x2) → x1 = x2).
  { intros x1 x2 Hx1%Hin Hx2%Hin Heq.
    destruct Hx1 as [->|[->| ->]], Hx2 as [->|[->| ->]];
      try reflexivity; rewrite ?H1, ?H2, ?H3 in Heq; discriminate Heq. }
  destruct (AdminTradesPage.sortOrder st).
  - assert (Hperm' : l ≡ₚ [t2; t3; t1]).
    { rewrite Hperm. apply Permutation_cons_append. }
    apply (StronglySorted_unique_strong R); [| assumption | | assumption].
    + intros x1 x2 Hx1 Hx2 H12%Hcmp H21%Hcmp.
      apply Hdistinct; [by rewrite <- Hperm | by rewrite <- Hperm, Hperm' | lia].
    + repeat (constructor; [| repeat (constructor; [apply Hcmp; lia|]); constructor]).
      constructor.
  - assert (Hperm' : l ≡ₚ [t1; t3; t2]).
    { rewrite Hperm. constructor. apply perm_swap. }
    apply (StronglySorted_unique_strong R); [| assumption | | assumption].
    + intros x1 x2 Hx1 Hx2 H12%Hcmp H21%Hcmp.
      apply Hdistinct; [by rewrite <- Hperm | by rewrite <- Hperm, Hperm' | lia].
    + repeat (constructor; [| repeat (constructor; [apply Hcmp; lia|]); constructor]).
      constructor.
Qed.

End Sorting.

Lemma sortedTrades_by_price_witness :
  let rows := [Sample.an_enriched 1 300 "REQUEST" "A" "물건발명";
               Sample.an_enriched 2 100 "ACCEPT" "B" "상표권";
               Sample.an_enriched 3 200 "ACCEPT" "C" "저작권"] in
  AdminTradesPage.sortedTrades (λ _, None) String.ltb
    (Sample.a_table rows "" "ALL" "price" AdminTradesPage.asc)
  = [Sample.an_enriched 2 100 "ACCEPT" "B" "상표권";
     Sample.an_enriched 3 200 "ACCEPT" "C" "저작권";
     Sample.an_enriched 1 300 "REQUEST" "A" "물건발명"]
  ∧ AdminTradesPage.sortedTrades (λ _, None) String.ltb
      (Sample.a_table rows "" "ALL" "price" AdminTradesPage.desc)
    = [Sample.an_enriched 1 300 "REQUEST" "A" "물건발명";
       Sample.an_enriched 3 200 "ACCEPT" "C" "저작권";
       Sample.an_enriched 2 100 "ACCEPT" "B" "상표권"].
Proof.
  split.
  - refine (proj1 (sortedTrades_by_price _ _ _ _ _ _ _ _ _) _); reflexivity.
  - refine (proj2 (sortedTrades_by_price _ _ _ _ _ _ _ _ _) _); reflexivity.
Defined.

(** ** Enrichment: waiting for all requests *)

Section PromiseAll.

Context {A : Type}.
Implicit Types (l : list A) (slots : list (option A)) (evs : list (nat * A)).

Lemma Promise_all_fulfil_length slots evs :
  length (foldl JS.Promise_all_fulfil slots evs) = length slots.
Proof.
  revert slots. induction evs as [|ev evs IH]; intros slots; simpl; [done|].
  rewrite IH. unfold JS.Promise_all_fulfil. apply length_insert.
Qed.

(** A slot holds the value of its position as soon as a fulfilment for the
    position has arrived, and is untouched before. *)
Lemma Promise_all_fulfil_lookup l slots evs (i : nat) :
  (∀ j x, (j, x) ∈ evs → l !! j = Some x) →
  foldl JS.Promise_all_fulfil slots evs !! i
  = (λ s, if decide (i ∈ evs.*1) then l !! i else s) <$> slots !! i.
Proof.
  revert slots. induction evs as [|[j x] evs IH]; intros slots Hl.
  - simpl. by destruct (slots !! i).
  - cbn [foldl]. rewrite IH by (intros; apply Hl; by right).
    unfold JS.Promise_all_fulfil. cbn [fst snd fmap list_fmap].
    destruct (decide (i = j)) as [->|Hne].
    + destruct (decide (j < length slots)%nat) as [Hlt|Hge].
      * rewrite list_lookup_insert_eq by done.
        destruct (lookup_lt_is_Some_2 slots j Hlt) as [s ->]. simpl.
        rewrite (decide_True (P := j ∈ j :: evs.*1)) by left.
        rewrite (Hl j x) by left. by case_decide.
      * rewrite list_insert_ge by lia. by rewrite (lookup_ge_None_2 slots j) by lia.
    + rewrite list_lookup_insert_ne by done.
      destruct (slots !! i) as [s|]; simpl; [|done].
      f_equal. destruct (decide (i ∈ evs.*1)) as [Hin|Hnin].
      * by rewrite decide_True by (by right).
      * rewrite decide_False; [done|]. by intros [?|?]%elem_of_cons.
Qed.

(** When every position has been fulfilled, in whatever order, the combined
    promise is fulfilled with the values in the order of their positions. *)
Lemma Promise_all_fulfilled l evs :
  (∀ j x, (j, x) ∈ evs → l !! j = Some x) →
  (∀ j, (j < length l)%nat → j ∈ evs.*1) →
  JS.Promise_all (length l) evs = Some l.
Proof.
  intros Hl Hall. unfold JS.Promise_all.
  replace (foldl JS.Promise_all_fulfil (replicate (length l) None) evs)
    with (Some <$> l).
  { by apply mapM_fmap_Some. }
  apply list_eq. intros i.
  rewrite (Promise_all_fulfil_lookup l) by done.
  rewrite list_lookup_fmap.
  destruct (decide (i < length l)%nat) as [Hlt|Hge].
  - rewrite lookup_replicate_2 by done. simpl.
    rewrite decide_True by auto.
    by destruct (lookup_lt_is_Some_2 l i Hlt) as [x ->].
  - rewrite (lookup_ge_None_2 l) by lia.
    rewrite lookup_ge_None_2; [done | rewrite length_replicate; lia].
Qed.

(** While some position has not been fulfilled, the combined promise is
    pending. *)
Lemma Promise_all_pending (n : nat) evs (i : nat) :
  (i < n)%nat → i ∉ evs.*1 → JS.Promise_all n evs = None.
Proof.
  intros Hlt Hi. unfold JS.Promise_all.
  destruct (mapM id _) as [k|] eqn:Hk; [|done]. exfalso.
  apply mapM_Some in Hk.
  assert (Hlen : (i < length k)%nat).
  { rewrite <- (Forall2_length _ _ _ Hk), Promise_all_fulfil_length, length_replicate. done. }
  destruct (lookup_lt_is_Some_2 k i Hlen) as [x Hx].
  destruct (Forall2_lookup_r _ _ _ _ _ Hk Hx) as (s & Hs & Hid).
  simpl in Hid. subst s. clear Hk Hx Hlen.
  revert Hs. generalize (replicate n (@None A)) (lookup_replicate_2 n (@None A) i Hlt).
  induction evs as [|[j y] evs IH]; intros slots Hslot Hs.
  - simpl in Hs. congruence.
  - cbn [foldl fmap list_fmap fst] in *. apply not_elem_of_cons in Hi as [Hij Hi].
    apply (IH Hi _) in Hs; [done|].
    unfold JS.Promise_all_fulfil. simpl.
    by rewrite list_lookup_insert_ne.
Qed.

End PromiseAll.

Section Enrichment.

Variable getTradeDetail : nat → Z → Api.DetailResult.

Lemma fetchPostInfoForTrades_settled (settle_order : list nat)
    (trades : list AdminTradesPage.Trade) (st : AdminTradesPage.State) :
  (∀ i, (i < length trades)%nat → i ∈ settle_order) →
  AdminTradesPage.fetchPostInfoForTrades getTradeDetail settle_order trades st
  = Some (AdminTradesPage.setTradesWithPostInfo (Described.enriched_list getTradeDetail trades) st).
Proof.
  intros Hall. unfold AdminTradesPage.fetchPostInfoForTrades.
  rewrite <- (length_imap
    (λ i t, AdminTradesPage.withPostInfo t (getTradeDetail i (AdminTradesPage.id t)))
    trades).
  fold (Described.enriched_list getTradeDetail trades).
  rewrite (Promise_all_fulfilled (Described.enriched_list getTradeDetail trades)); [done| |].
  - intros j x (i & Hi & Hx)%list_elem_of_omap.
    destruct (trades !! i) as [t|] eqn:Ht; simpl in Hx; [|done].
    injection Hx as <- <-. unfold Described.enriched_list.
    by rewrite list_lookup_imap, Ht.
  - intros j Hj. unfold Described.enriched_list in Hj. rewrite length_imap in Hj.
    destruct (lookup_lt_is_Some_2 trades j Hj) as [t Ht].
    apply list_elem_of_fmap.
    exists (j, AdminTradesPage.withPostInfo t (getTradeDetail j (AdminTradesPage.id t))).
    split; [done|]. apply list_elem_of_omap. exists j. split; [by apply Hall|].
    by rewrite Ht.
Qed.

(** While a request has not settled, the list shown is not replaced. *)
Lemma fetchPostInfoForTrades_pending (settle_order : list nat)
    (trades : list AdminTradesPage.Trade) (st : AdminTradesPage.State) (i : nat) :
  (i < length trades)%nat → i ∉ settle_order →
  AdminTradesPage.fetchPostInfoForTrades getTradeDetail settle_order trades st = None.
Proof.
  intros Hi Hnot. unfold AdminTradesPage.fetchPostInfoForTrades.
  rewrite (Promise_all_pending _ _ i); [done | done |].
  intros ([j x] & Hj & (k & Hk & Hx)%list_elem_of_omap)%list_elem_of_fmap.
  destruct (trades !! k); simpl in *; [|done]. by simplify_eq.
Qed.

(** C1 (amended). When the detail request of the trade at position K is
    rejected, [fetchPostInfoForTrades] still completes once all requests have
    settled, in whatever order: the list it stores has one entry per trade,
    in the order of the input; entry K has the labels "제목 없음" and
    "카테고리 없음"; every other entry whose request was fulfilled carries the
    fetched title, or "제목 없음" when the detail has none, and as its category
    the label [getCategoryLabel] gives for the fetched category, or
    "카테고리 없음" when the detail has no category or an empty one. *)
Theorem enrichment_partial_failure (settle_order : list nat)
    (trades : list AdminTradesPage.Trade) (st : AdminTradesPage.State)
    (K : nat) (tK : AdminTradesPage.Trade) (e : Api.ApiError) :
  settle_order ≡ₚ seq 0 (length trades) →
  trades !! K = Some tK →
  getTradeDetail K (AdminTradesPage.id tK) = JS.Rejected e →
  ∃ st' : AdminTradesPage.State,
    AdminTradesPage.fetchPostInfoForTrades getTradeDetail settle_order trades st = Some st'
    ∧ let results := AdminTradesPage.tradesWithPostInfo st' in
      length results = length trades
      ∧ map AdminTradesPage.trade results = trades
      ∧ results !! K
        = Some {| AdminTradesPage.trade := tK;
                  AdminTradesPage.postTitle := Some "제목 없음";
                  AdminTradesPage.postCategory := Some "카테고리 없음" |}
      ∧ (∀ (i : nat) (t : AdminTradesPage.Trade) (response : Api.DetailResponse),
           i ≠ K → trades !! i = Some t →
           getTradeDetail i (AdminTradesPage.id t) = JS.Fulfilled response →
           results !! i
           = Some {| AdminTradesPage.trade := t;
                     AdminTradesPage.postTitle :=
                       Some match Api.data_postTitle response with
                            | Some title => title
                            | None => "제목 없음"
                            end;
                     AdminTradesPage.postCategory :=
                       Some match Api.data_postCategory response with
                            | Some category =>
                                if String.eqb category "" then "카테고리 없음"
                                else AdminTradesPage.getCategoryLabel category
                            | None => "카테고리 없음"
                            end |}).
Proof.
  intros Hperm HK Hrej. eexists. split.
  { apply fetchPostInfoForTrades_settled. intros i Hi.
    rewrite Hperm. apply elem_of_seq. lia. }
  cbn [AdminTradesPage.tradesWithPostInfo AdminTradesPage.setTradesWithPostInfo].
  unfold Described.enriched_list. split; [apply length_imap|]. split; [|split].
  - apply list_eq. intros i. rewrite list_lookup_fmap, list_lookup_imap.
    destruct (trades !! i) as [t|]; [|done]. simpl.
    by destruct (getTradeDetail i (AdminTradesPage.id t)).
  - by rewrite list_lookup_imap, HK; simpl; rewrite Hrej.
  - intros i t response Hi Ht Hok. rewrite list_lookup_imap, Ht. simpl. rewrite Hok.
    simpl. do 3 f_equal.
    destruct (Api.data_postCategory response) as [category|]; [|done]. simpl.
    destruct (String.eqb_spec category "") as [->|Hne]; [done|].
    apply truthy_true in Hne. by rewrite Hne.
Qed.

End Enrichment.

Lemma enrichment_partial_failure_witness :
  ∃ st' : AdminTradesPage.State,
    AdminTradesPage.fetchPostInfoForTrades (Sample.failing_at 1 "A" "PRODUCT") [2; 0; 1]%nat
      [Sample.a_trade 11 300 "REQUEST"; Sample.a_trade 12 100 "ACCEPT";
       Sample.a_trade 13 200 "COMPLETED"]
      AdminTradesPage.initial
    = Some st'
    ∧ AdminTradesPage.tradesWithPostInfo st' !! 1%nat
      = Some {| AdminTradesPage.trade := Sample.a_trade 12 100 "ACCEPT";
                AdminTradesPage.postTitle := Some "제목 없음";
                AdminTradesPage.postCategory := Some "카테고리 없음" |}
    ∧ AdminTradesPage.tradesWithPostInfo st' !! 2%nat
      = Some {| AdminTradesPage.trade := Sample.a_trade 13 200 "COMPLETED";
                AdminTradesPage.postTitle := Some "A";
                AdminTradesPage.postCategory := Some "물건발명" |}
    ∧ map (λ r, (AdminTradesPage.id (AdminTradesPage.trade r),
                 AdminTradesPage.postTitle r, AdminTradesPage.postCategory r))
          (AdminTradesPage.tradesWithPostInfo st')
      = [(11, Some "A", Some "물건발명");
         (12, Some "제목 없음", Some "카테고리 없음");
         (13, Some "A", Some "물건발명")].
Proof.
  destruct (enrichment_partial_failure (Sample.failing_at 1 "A" "PRODUCT") [2; 0; 1]%nat
              [Sample.a_trade 11 300 "REQUEST"; Sample.a_trade 12 100 "ACCEPT";
               Sample.a_trade 13 200 "COMPLETED"]
              AdminTradesPage.initial 1%nat (Sample.a_trade 12 100 "ACCEPT")
              (Sample.status_only 500 None))
    as (st' & Hrun & Hrest).
  - simpl. rewrite (Permutation_swap 0%nat 2%nat [1%nat]).
    apply Permutation_skip, Permutation_swap.
  - reflexivity.
  - reflexivity.
  - cbv zeta in Hrest. destruct Hrest as (_ & _ & HK & Hothers).
    exists st'. split; [exact Hrun|]. split; [exact HK|]. split.
    + apply (Hothers 2%nat (Sample.a_trade 13 200 "COMPLETED")
               {| Api.data := Some (Sample.a_detail 13 (Some "A") (Some "PRODUCT")) |});
        [lia | reflexivity | reflexivity].
    + vm_compute in Hrun. injection Hrun as <-. reflexivity.
Defined.

(** C1 (as stated, fails). An entry whose request was fulfilled does not
    carry the fetched category: with two trades of which the second fails, the
    first one's detail has category "PRODUCT" and the entry stored for it has
    the label "물건발명". *)
Lemma enrichment_category_counterexample :
  ∃ (st' : AdminTradesPage.State) (response : Api.DetailResponse)
    (r : AdminTradesPage.TradeWithPostInfo),
    AdminTradesPage.fetchPostInfoForTrades (Sample.failing_at 1 "A" "PRODUCT") [0; 1]%nat
      [Sample.a_trade 11 300 "REQUEST"; Sample.a_trade 12 100 "ACCEPT"]
      AdminTradesPage.initial
    = Some st'
    ∧ Sample.failing_at 1 "A" "PRODUCT" 0 11 = JS.Fulfilled response
    ∧ Api.data_postTitle response = Some "A"
    ∧ Api.data_postCategory response = Some "PRODUCT"
    ∧ AdminTradesPage.tradesWithPostInfo st' !! 0%nat = Some r
    ∧ AdminTradesPage.postTitle r = Some "A"
    ∧ AdminTradesPage.postCategory r = Some "물건발명"
    ∧ AdminTradesPage.postCategory r ≠ Api.data_postCategory response.
Proof.
  eexists _, _, _. split; [reflexivity|]. split; [reflexivity|].
  split; [reflexivity|]. split; [reflexivity|]. split; [reflexivity|].
  split; [reflexivity|]. split; [reflexivity|]. discriminate.
Qed.

(** ** The modal: results of superseded requests *)

(** The modal kept mounted by its parent across a close, in the order of the
    scenario: opened for trade 5, closed, reopened for trade 7, the request for
    7 fulfilled, then the request for 5 fulfilled.  The instance issues both
    requests and ends up showing the detail of trade 5. *)
Lemma modal_kept_mounted_shows_last_result (d5 d7 : Api.TradeDetail) :
  let open5 := {| TradeDetailModal.isOpen := true; TradeDetailModal.tradeId := 5 |} in
  let closed := {| TradeDetailModal.isOpen := false; TradeDetailModal.tradeId := 5 |} in
  let open7 := {| TradeDetailModal.isOpen := true; TradeDetailModal.tradeId := 7 |} in
  let '(st1, req1) := TradeDetailModal.after_render None open5 TradeDetailModal.initial in
  let '(st2, _) := TradeDetailModal.handleClose st1 in
  let '(st3, req3) := TradeDetailModal.after_render (Some open5) closed st2 in
  let '(st4, req4) := TradeDetailModal.after_render (Some closed) open7 st3 in
  let st5 := TradeDetailModal.fetchTradeDetail_settled
               (JS.Fulfilled {| Api.data := Some d7 |}) st4 in
  let st6 := TradeDetailModal.fetchTradeDetail_settled
               (JS.Fulfilled {| Api.data := Some d5 |}) st5 in
  (req1, req3, req4) = (Some 5, None, Some 7)
  ∧ TradeDetailModal.render open7 st5 = TradeDetailModal.Detail d7
  ∧ TradeDetailModal.render open7 st6 = TradeDetailModal.Detail d5.
Proof. simpl. auto. Qed.




(** * Further properties of the pages *)

(** ** The trade table: what is shown *)

Lemma filteredTrades_elem (st : AdminTradesPage.State) (t : AdminTradesPage.TradeWithPostInfo) :
  t ∈ AdminTradesPage.filteredTrades st
  ↔ t ∈ AdminTradesPage.tradesWithPostInfo st ∧ Described.passes st t.
Proof.
  unfold AdminTradesPage.filteredTrades.
  rewrite list_elem_of_In, filter_In, <- list_elem_of_In, filter_passes. done.
Qed.

Lemma filter_all {A} (f : A → bool) (l : list A) :
  (∀ x, x ∈ l → f x = true) → List.filter f l = l.
Proof.
  induction l as [|x l IH]; intros H; simpl; [done|].
  rewrite (H x) by left. f_equal. apply IH. intros y Hy. apply H. by right.
Qed.

Lemma filter_sublist_impl {A} (f g : A → bool) (l : list A) :
  (∀ x, x ∈ l → f x = true → g x = true) →
  sublist (List.filter f l) (List.filter g l).
Proof.
  induction l as [|x l IH]; intros H; simpl; [constructor|].
  assert (IH' : sublist (List.filter f l) (List.filter g l)).
  { apply IH. intros y Hy. apply H. by right. }
  destruct (f x) eqn:Hf.
  - rewrite (H x) by (done || left). by constructor.
  - destruct (g x); [by constructor | done].
Qed.

(** X1. With the status filter on ALL and an empty search box, the page's
    initial view, every enriched record is shown: the filter removes
    nothing and keeps the order. *)
Theorem filteredTrades_default_view (st : AdminTradesPage.State) :
  AdminTradesPage.statusFilter st = "ALL" →
  AdminTradesPage.searchTerm st = "" →
  AdminTradesPage.filteredTrades st = AdminTradesPage.tradesWithPostInfo st.
Proof.
  intros Hf Hs. unfold AdminTradesPage.filteredTrades. apply filter_all.
  intros t _. apply filter_passes. split; by left.
Qed.

Lemma filteredTrades_default_view_witness :
  let rows := [Sample.an_enriched 1 300 "REQUEST" "A" "물건발명";
               Sample.an_enriched 2 100 "ACCEPT" "B" "상표권"] in
  AdminTradesPage.filteredTrades
    (Sample.a_table rows "" "ALL" "createdAt" AdminTradesPage.desc)
  = rows.
Proof.
  intros rows. apply (filteredTrades_default_view
    (Sample.a_table rows "" "ALL" "createdAt" AdminTradesPage.desc)); reflexivity.
Defined.

Lemma append_assoc (a b c : string) : (a +:+ b) +:+ c = a +:+ (b +:+ c).
Proof.
  induction a as [|x a IH]; [done|]. by rewrite !append_cons, IH.
Qed.

Lemma contains_trans (s t u : string) :
  Described.contains s t → Described.contains t u → Described.contains s u.
Proof.
  intros (p & q & ->) (p' & q' & ->).
  exists (p +:+ p'), (q' +:+ q). by rewrite !append_assoc.
Qed.

Lemma contains_empty_inv (t : string) : Described.contains "" t → t = "".
Proof.
  intros (p & q & H). destruct p; [|discriminate H].
  destruct t; [done | discriminate H].
Qed.

(** X2. Refining the search never brings rows back: when the new search term
    contains the old one (the user typed more characters around it) and the
    status filter and the list are unchanged, the rows that pass the new
    search are a sublist of the rows that passed the old one. *)
Theorem filteredTrades_refine_search (st st' : AdminTradesPage.State) :
  AdminTradesPage.tradesWithPostInfo st' = AdminTradesPage.tradesWithPostInfo st →
  AdminTradesPage.statusFilter st' = AdminTradesPage.statusFilter st →
  Described.contains (AdminTradesPage.searchTerm st') (AdminTradesPage.searchTerm st) →
  sublist (AdminTradesPage.filteredTrades st') (AdminTradesPage.filteredTrades st).
Proof.
  intros Hl Hf Hc. unfold AdminTradesPage.filteredTrades. rewrite Hl.
  apply filter_sublist_impl. intros t _. rewrite !filter_passes.
  unfold Described.passes. rewrite Hf. intros [Hstatus Hsearch]. split; [done|].
  destruct Hsearch as [He | (f & Hf' & Hin)].
  - left. rewrite He in Hc. by apply contains_empty_inv.
  - right. exists f. split; [done|]. by eapply contains_trans.
Qed.

Lemma filteredTrades_refine_search_witness :
  let rows := [Sample.an_enriched 1 300 "REQUEST" "A" "물건발명";
               Sample.an_enriched 13 100 "ACCEPT" "B" "상표권";
               Sample.an_enriched 3 200 "ACCEPT" "C" "저작권"] in
  sublist
    (AdminTradesPage.filteredTrades
       (Sample.a_table rows "13" "ALL" "createdAt" AdminTradesPage.desc))
    (AdminTradesPage.filteredTrades
       (Sample.a_table rows "3" "ALL" "createdAt" AdminTradesPage.desc)).
Proof.
  intros rows. apply filteredTrades_refine_search; [reflexivity | reflexivity |].
  by exists "1", "".
Defined.

(** X3. Choosing a status narrows the ALL view and never reorders it: for the
    same list and search term, the rows shown under any status filter are a
    sublist of the rows shown under ALL, and all of them have that status
    unless the filter is ALL. *)
Theorem filteredTrades_status_narrows (st st' : AdminTradesPage.State) :
  AdminTradesPage.tradesWithPostInfo st' = AdminTradesPage.tradesWithPostInfo st →
  AdminTradesPage.searchTerm st' = AdminTradesPage.searchTerm st →
  AdminTradesPage.statusFilter st = "ALL" →
  sublist (AdminTradesPage.filteredTrades st') (AdminTradesPage.filteredTrades st)
  ∧ (AdminTradesPage.statusFilter st' ≠ "ALL" →
     ∀ t, t ∈ AdminTradesPage.filteredTrades st' →
          AdminTradesPage.status (AdminTradesPage.trade t)
          = AdminTradesPage.statusFilter st').
Proof.
  intros Hl Hs Hall. split.
  - unfold AdminTradesPage.filteredTrades. rewrite Hl.
    apply filter_sublist_impl. intros t _. rewrite !filter_passes.
    unfold Described.passes. rewrite Hs, Hall. intros [_ Hsearch]. split; [by left | done].
  - intros Hne t [_ [[H|H] _]]%filteredTrades_elem; [contradiction | done].
Qed.

Lemma filteredTrades_status_narrows_witness :
  let rows := [Sample.an_enriched 1 300 "REQUEST" "A" "물건발명";
               Sample.an_enriched 2 100 "ACCEPT" "B" "상표권"] in
  sublist
    (AdminTradesPage.filteredTrades
       (Sample.a_table rows "" "ACCEPT" "createdAt" AdminTradesPage.desc))
    (AdminTradesPage.filteredTrades
       (Sample.a_table rows "" "ALL" "createdAt" AdminTradesPage.desc)).
Proof.
  intros rows.
  refine (proj1 (filteredTrades_status_narrows _ _ _ _ _)); reflexivity.
Defined.

(** ** The trade table: order *)

(** Inserting keeps a list in order, for any order the comparator decides
    between the elements involved. *)
Lemma sort_insert_sorted {A} (R : relation A) `{!Transitive R}
    (cmp : A → A → Z) (x : A) (l : list A) :
  (∀ y, y ∈ l → if cmp x y <? 0 then R x y else R y x) →
  StronglySorted R l → StronglySorted R (JS.sort_insert cmp x l).
Proof.
  induction l as [|y l IH]; intros Hcmp Hl; simpl.
  - repeat constructor.
  - apply StronglySorted_inv in Hl as [Hl Hy].
    pose proof (Hcmp y ltac:(left)) as Hxy.
    destruct (cmp x y <? 0).
    + constructor; [by constructor|]. constructor; [done|].
      eapply Forall_impl; [exact Hy|]. intros z Hz. by transitivity y.
    + constructor.
      * apply IH; [|done]. intros z Hz. apply Hcmp. by right.
      * rewrite sort_insert_perm. by constructor.
Qed.

Lemma Array_sort_sorted {A} (R : relation A) `{!Transitive R}
    (cmp : A → A → Z) (l : list A) :
  (∀ x y, x ∈ l → y ∈ l → if cmp x y <? 0 then R x y else R y x) →
  StronglySorted R (JS.Array_sort cmp l).
Proof.
  unfold JS.Array_sort. intros Hcmp.
  assert (H : ∀ acc,
            (∀ x y, x ∈ (acc ++ l)%list → y ∈ (acc ++ l)%list →
               if cmp x y <? 0 then R x y else R y x) →
            StronglySorted R acc →
            StronglySorted R (foldl (λ acc x, JS.sort_insert cmp x acc) acc l)).
  { clear Hcmp. induction l as [|x l IH]; intros acc Hcmp Hacc; simpl; [done|].
    apply IH.
    - intros a b Ha Hb. apply Hcmp.
      + rewrite elem_of_app, sort_insert_perm, elem_of_cons in Ha.
        rewrite elem_of_app, elem_of_cons. tauto.
      + rewrite elem_of_app, sort_insert_perm, elem_of_cons in Hb.
        rewrite elem_of_app, elem_of_cons. tauto.
    - apply sort_insert_sorted; [done| |done].
      intros y Hy. apply Hcmp; rewrite elem_of_app, elem_of_cons; tauto. }
  apply H; [|constructor]. intros x y Hx Hy. by apply Hcmp.
Qed.

Section SortingGeneral.

Variable Date_getTime : string → option Z.
Variable str_lt : string → string → bool.


(** The numeric keys of the comparator. *)
Lemma compareTrades_id (st : AdminTradesPage.State)
    (a b : AdminTradesPage.TradeWithPostInfo) :
  AdminTradesPage.sortBy st = "id" →
  AdminTradesPage.compareTrades Date_getTime str_lt st a b
  = match AdminTradesPage.sortOrder st with
    | AdminTradesPage.asc =>
        if AdminTradesPage.id (AdminTradesPage.trade b)
           <? AdminTradesPage.id (AdminTradesPage.trade a) then 1 else -1
    | AdminTradesPage.desc =>
        if AdminTradesPage.id (AdminTradesPage.trade a)
           <? AdminTradesPage.id (AdminTradesPage.trade b) then 1 else -1
    end.
Proof.
  intros Hk. unfold AdminTradesPage.compareTrades, AdminTradesPage.sortValue.
  rewrite Hk. reflexivity.
Qed.

Lemma compareTrades_createdAt (st : AdminTradesPage.State)
    (a b : AdminTradesPage.TradeWithPostInfo) (ta tb : Z) :
  AdminTradesPage.sortBy st = "createdAt" →
  Date_getTime (AdminTradesPage.createdAt (AdminTradesPage.trade a)) = Some ta →
  Date_getTime (AdminTradesPage.createdAt (AdminTradesPage.trade b)) = Some tb →
  AdminTradesPage.compareTrades Date_getTime str_lt st a b
  = match AdminTradesPage.sortOrder st with
    | AdminTradesPage.asc => if tb <? ta then 1 else -1
    | AdminTradesPage.desc => if ta <? tb then 1 else -1
    end.
Proof.
  intros Hk Ha Hb. unfold AdminTradesPage.compareTrades, AdminTradesPage.sortValue.
  rewrite Hk. simpl. rewrite Ha, Hb. reflexivity.
Qed.

(** X5. Sorting by price (or by id) orders any list: ascending, no row is
    followed by one with a smaller price; descending, by one with a larger
    price. *)
Theorem sortedTrades_price_ordered (st : AdminTradesPage.State) :
  (AdminTradesPage.sortBy st = "price" →
   StronglySorted
     (λ a b, match AdminTradesPage.sortOrder st with
             | AdminTradesPage.asc =>
                 AdminTradesPage.price (AdminTradesPage.trade a)
                 ≤ AdminTradesPage.price (AdminTradesPage.trade b)
             | AdminTradesPage.desc =>
                 AdminTradesPage.price (AdminTradesPage.trade b)
                 ≤ AdminTradesPage.price (AdminTradesPage.trade a)
             end)
     (AdminTradesPage.sortedTrades Date_getTime str_lt st))
  ∧ (AdminTradesPage.sortBy st = "id" →
     StronglySorted
       (λ a b, match AdminTradesPage.sortOrder st with
               | AdminTradesPage.asc =>
                   AdminTradesPage.id (AdminTradesPage.trade a)
                   ≤ AdminTradesPage.id (AdminTradesPage.trade b)
               | AdminTradesPage.desc =>
                   AdminTradesPage.id (AdminTradesPage.trade b)
                   ≤ AdminTradesPage.id (AdminTradesPage.trade a)
               end)
       (AdminTradesPage.sortedTrades Date_getTime str_lt st)).
Proof.
  split; intros Hk; unfold AdminTradesPage.sortedTrades.
  - apply Array_sort_sorted.
    + intros a b c. destruct (AdminTradesPage.sortOrder st); lia.
    + intros a b _ _. rewrite compareTrades_price by done.
      destruct (AdminTradesPage.sortOrder st); repeat case_match; lia.
  - apply Array_sort_sorted.
    + intros a b c. destruct (AdminTradesPage.sortOrder st); lia.
    + intros a b _ _. rewrite compareTrades_id by done.
      destruct (AdminTradesPage.sortOrder st); repeat case_match; lia.
Qed.

(** X6. Sorting by creation time, the default key, orders the list by
    timestamp whenever the creation date of every enriched record parses:
    descending (the default) newest first, ascending oldest first. *)
Theorem sortedTrades_createdAt_ordered (st : AdminTradesPage.State) :
  AdminTradesPage.sortBy st = "createdAt" →
  (∀ t, t ∈ AdminTradesPage.tradesWithPostInfo st →
        is_Some (Date_getTime (AdminTradesPage.createdAt (AdminTradesPage.trade t)))) →
  StronglySorted
    (λ a b, ∃ ta tb : Z,
       Date_getTime (AdminTradesPage.createdAt (AdminTradesPage.trade a)) = Some ta
       ∧ Date_getTime (AdminTradesPage.createdAt (AdminTradesPage.trade b)) = Some tb
       ∧ match AdminTradesPage.sortOrder st with
         | AdminTradesPage.asc => ta ≤ tb
         | AdminTradesPage.desc => tb ≤ ta
         end)
    (AdminTradesPage.sortedTrades Date_getTime str_lt st).
Proof.
  intros Hk Hparse. unfold AdminTradesPage.sortedTrades.
  apply Array_sort_sorted.
  - intros a b c (ta & tb & Ha & Hb & Hab) (tb' & tc & Hb' & Hc & Hbc).
    exists ta, tc. split; [done|]. split; [done|].
    assert (tb' = tb) as -> by congruence.
    destruct (AdminTradesPage.sortOrder st); lia.
  - intros a b [Ha _]%filteredTrades_elem [Hb _]%filteredTrades_elem.
    destruct (Hparse a Ha) as [ta Hta]. destruct (Hparse b Hb) as [tb Htb].
    rewrite (compareTrades_createdAt st a b ta tb) by done.
    destruct (AdminTradesPage.sortOrder st).
    + destruct (Z.ltb_spec tb ta); simpl.
      * exists tb, ta. split; [done|]. split; [done|]. lia.
      * exists ta, tb. split; [done|]. split; [done|]. lia.
    + destruct (Z.ltb_spec ta tb); simpl.
      * exists tb, ta. split; [done|]. split; [done|]. lia.
      * exists ta, tb. split; [done|]. split; [done|]. lia.
Qed.

End SortingGeneral.

(** The byte-wise lexicographic order on strings is a strict weak order. *)
Lemma ltb_lt (a b : string) : String.ltb a b = true ↔ OrderedTypeEx.String_as_OT.lt a b.
Proof.
  rewrite <- OrderedTypeEx.String_as_OT.cmp_lt. unfold String.ltb, OrderedTypeEx.String_as_OT.cmp.
  destruct (String.compare a b); intuition congruence.
Qed.

Lemma ltb_asym (a b : string) : String.ltb a b = true → String.ltb b a = false.
Proof.
  unfold String.ltb. rewrite (String.compare_antisym b a).
  by destruct (String.compare a b).
Qed.

Lemma ltb_negtrans (a b c : string) :
  String.ltb b a = false → String.ltb c b = false → String.ltb c a = false.
Proof.
  intros Hba Hcb. destruct (String.ltb c a) eqn:Hca; [|done]. exfalso.
  (* c < a, not b < a, not c < b: compare b with a and with c *)
  assert (Hab : String.compare b a = Eq ∨ String.ltb a b = true).
  { unfold String.ltb in *. rewrite (String.compare_antisym a b).
    destruct (String.compare b a); simpl; auto. }
  assert (Hbc : String.compare c b = Eq ∨ String.ltb b c = true).
  { unfold String.ltb in *. rewrite (String.compare_antisym b c).
    destruct (String.compare c b); simpl; auto. }
  destruct Hab as [Hab%String.compare_eq_iff | Hab], Hbc as [Hbc%String.compare_eq_iff | Hbc];
    subst; try congruence.
  apply ltb_lt in Hca, Hab, Hbc.
  pose proof (OrderedTypeEx.String_as_OT.lt_trans _ _ _ Hca
                (OrderedTypeEx.String_as_OT.lt_trans _ _ _ Hab Hbc)) as Hcc.
  by apply OrderedTypeEx.String_as_OT.lt_not_eq in Hcc.
Qed.

Section SortingStrings.

Variable Date_getTime : string → option Z.
Variable str_lt : string → string → bool.

(** The host's order on strings is a strict weak order. *)
Hypothesis str_lt_asym : ∀ a b, str_lt a b = true → str_lt b a = false.
Hypothesis str_lt_negtrans :
  ∀ a b c, str_lt b a = false → str_lt c b = false → str_lt c a = false.

Lemma sorted_by_string_key (st : AdminTradesPage.State)
    (k : AdminTradesPage.TradeWithPostInfo → string) :
  (∀ a b, AdminTradesPage.compareTrades Date_getTime str_lt st a b
          = match AdminTradesPage.sortOrder st with
            | AdminTradesPage.asc => if str_lt (k b) (k a) then 1 else -1
            | AdminTradesPage.desc => if str_lt (k a) (k b) then 1 else -1
            end) →
  StronglySorted
    (λ a b, match AdminTradesPage.sortOrder st with
            | AdminTradesPage.asc => str_lt (k b) (k a) = false
            | AdminTradesPage.desc => str_lt (k a) (k b) = false
            end)
    (AdminTradesPage.sortedTrades Date_getTime str_lt st).
Proof.
  intros Hcmp. unfold AdminTradesPage.sortedTrades. apply Array_sort_sorted.
  - intros a b c. destruct (AdminTradesPage.sortOrder st); intros H1 H2.
    + by apply (str_lt_negtrans _ (k b)).
    + by apply (str_lt_negtrans _ (k b)).
  - intros a b _ _. rewrite Hcmp. destruct (AdminTradesPage.sortOrder st).
    + destruct (str_lt (k b) (k a)) eqn:E; simpl; [by apply str_lt_asym | done].
    + destruct (str_lt (k a) (k b)) eqn:E; simpl; [by apply str_lt_asym | done].
Qed.

(** X7. Sorting by post title or by post category orders any list by the
    host's string order of the cell's key (a missing or empty field counts as
    the empty string): ascending, no row is followed by one whose key is
    strictly smaller; descending, by one whose key is strictly larger. *)
Theorem sortedTrades_string_ordered (st : AdminTradesPage.State) :
  (AdminTradesPage.sortBy st = "postTitle" →
   StronglySorted
     (λ a b, match AdminTradesPage.sortOrder st with
             | AdminTradesPage.asc =>
                 str_lt (JS.or_else (AdminTradesPage.postTitle b) "")
                        (JS.or_else (AdminTradesPage.postTitle a) "") = false
             | AdminTradesPage.desc =>
                 str_lt (JS.or_else (AdminTradesPage.postTitle a) "")
                        (JS.or_else (AdminTradesPage.postTitle b) "") = false
             end)
     (AdminTradesPage.sortedTrades Date_getTime str_lt st))
  ∧ (AdminTradesPage.sortBy st = "postCategory" →
     StronglySorted
       (λ a b, match AdminTradesPage.sortOrder st with
               | AdminTradesPage.asc =>
                   str_lt (JS.or_else (AdminTradesPage.postCategory b) "")
                          (JS.or_else (AdminTradesPage.postCategory a) "") = false
               | AdminTradesPage.desc =>
                   str_lt (JS.or_else (AdminTradesPage.postCategory a) "")
                          (JS.or_else (AdminTradesPage.postCategory b) "") = false
               end)
       (AdminTradesPage.sortedTrades Date_getTime str_lt st)).
Proof.
  split; intros Hk.
  - apply (sorted_by_string_key st (λ t, JS.or_else (AdminTradesPage.postTitle t) "")).
    intros a b. unfold AdminTradesPage.compareTrades, AdminTradesPage.sortValue.
    by rewrite Hk.
  - apply (sorted_by_string_key st (λ t, JS.or_else (AdminTradesPage.postCategory t) "")).
    intros a b. unfold AdminTradesPage.compareTrades, AdminTradesPage.sortValue.
    by rewrite Hk.
Qed.

End SortingStrings.

Lemma sortedTrades_price_ordered_witness :
  let rows := [Sample.an_enriched 1 300 "REQUEST" "A" "물건발명";
               Sample.an_enriched 2 100 "ACCEPT" "B" "상표권";
               Sample.an_enriched 3 300 "ACCEPT" "C" "저작권"] in
  let st := Sample.a_table rows "" "ALL" "price" AdminTradesPage.desc in
  StronglySorted
    (λ a b, AdminTradesPage.price (AdminTradesPage.trade b)
            ≤ AdminTradesPage.price (AdminTradesPage.trade a))
    (AdminTradesPage.sortedTrades (λ _, None) String.ltb st).
Proof.
  intros rows st.
  apply (proj1 (sortedTrades_price_ordered (λ _, None) String.ltb st)). reflexivity.
Defined.

Lemma sortedTrades_createdAt_ordered_witness :
  let rows := [Sample.an_enriched_at 1 300 "REQUEST" "2025-08-02T09:00:00";
               Sample.an_enriched_at 2 100 "ACCEPT" "2025-08-03T18:30:00";
               Sample.an_enriched_at 3 200 "COMPLETED" "2025-07-31T23:59:59";
               Sample.an_enriched_at 4 400 "ACCEPT" "2025-08-02T09:00:01"] in
  let newest_first := Sample.a_table rows "" "ALL" "createdAt" AdminTradesPage.desc in
  let oldest_first := Sample.a_table rows "" "ALL" "createdAt" AdminTradesPage.asc in
  let created := map (λ t, AdminTradesPage.createdAt (AdminTradesPage.trade t)) in
  created (AdminTradesPage.sortedTrades Sample.clock String.ltb newest_first)
  = ["2025-08-03T18:30:00"; "2025-08-02T09:00:01"; "2025-08-02T09:00:00";
     "2025-07-31T23:59:59"]
  ∧ created (AdminTradesPage.sortedTrades Sample.clock String.ltb oldest_first)
    = ["2025-07-31T23:59:59"; "2025-08-02T09:00:00"; "2025-08-02T09:00:01";
       "2025-08-03T18:30:00"]
  ∧ StronglySorted
      (λ a b, ∃ ta tb : Z,
         Sample.clock (AdminTradesPage.createdAt (AdminTradesPage.trade a)) = Some ta
         ∧ Sample.clock (AdminTradesPage.createdAt (AdminTradesPage.trade b)) = Some tb
         ∧ tb ≤ ta)
      (AdminTradesPage.sortedTrades Sample.clock String.ltb newest_first)
  ∧ StronglySorted
      (λ a b, ∃ ta tb : Z,
         Sample.clock (AdminTradesPage.createdAt (AdminTradesPage.trade a)) = Some ta
         ∧ Sample.clock (AdminTradesPage.createdAt (AdminTradesPage.trade b)) = Some tb
         ∧ ta ≤ tb)
      (AdminTradesPage.sortedTrades Sample.clock String.ltb oldest_first).
Proof.
  intros rows newest_first oldest_first created.
  assert (Hparse : ∀ t, t ∈ rows →
            is_Some (Sample.clock (AdminTradesPage.createdAt (AdminTradesPage.trade t)))).
  { intros t Ht. subst rows. rewrite !elem_of_cons in Ht.
    destruct Ht as [-> | [-> | [-> | [-> | Ht]]]];
      [eexists; reflexivity .. | by apply elem_of_nil in Ht]. }
  split; [reflexivity|]. split; [reflexivity|]. split.
  - apply (sortedTrades_createdAt_ordered Sample.clock String.ltb newest_first);
      [reflexivity | exact Hparse].
  - apply (sortedTrades_createdAt_ordered Sample.clock String.ltb oldest_first);
      [reflexivity | exact Hparse].
Defined.

Lemma sortedTrades_string_ordered_witness :
  let rows := [Sample.an_enriched 1 300 "REQUEST" "B" "물건발명";
               Sample.an_enriched 2 100 "ACCEPT" "A" "상표권"] in
  let st := Sample.a_table rows "" "ALL" "postTitle" AdminTradesPage.asc in
  StronglySorted
    (λ a b, String.ltb (JS.or_else (AdminTradesPage.postTitle b) "")
                       (JS.or_else (AdminTradesPage.postTitle a) "") = false)
    (AdminTradesPage.sortedTrades (λ _, None) String.ltb st).
Proof.
  intros rows st.
  apply (proj1 (sortedTrades_string_ordered (λ _, None) String.ltb
                  ltb_asym ltb_negtrans st)). reflexivity.
Defined.

(** ** The trade table: headers, badges and cells *)

(** X8. A click on a sortable header makes its key the sort key; a header
    that was not the sort key starts in descending order; a second click on
    the same header only flips the direction, and two clicks on the header
    already sorted by bring the page back to the state it was in.  A click
    changes neither the search term, the status filter, the enriched list nor
    the modal cells, so the rows shown stay the same rows. *)
Theorem sortHeaderClick_spec (key : string) (st : AdminTradesPage.State) :
  let st' := AdminTradesPage.sortHeaderClick key st in
  AdminTradesPage.sortBy st' = key
  ∧ (AdminTradesPage.sortBy st ≠ key → AdminTradesPage.sortOrder st' = AdminTradesPage.desc)
  ∧ (AdminTradesPage.sortBy st = key →
     AdminTradesPage.sortOrder st' ≠ AdminTradesPage.sortOrder st
     ∧ AdminTradesPage.sortHeaderClick key st' = st)
  ∧ AdminTradesPage.filteredTrades st' = AdminTradesPage.filteredTrades st
  ∧ AdminTradesPage.selectedTradeId st' = AdminTradesPage.selectedTradeId st
  ∧ AdminTradesPage.isModalOpen st' = AdminTradesPage.isModalOpen st.
Proof.
  unfold AdminTradesPage.sortHeaderClick.
  destruct (String.eqb_spec (AdminTradesPage.sortBy st) key) as [He|Hne]; simpl.
  - split; [done|]. split; [done|]. split; [|done]. intros _.
    rewrite He, String.eqb_refl. destruct st as [? ? ? ? ? [] ?]; simpl in *; by subst.
  - split; [done|]. split; [done|]. split; [done|]. done.
Qed.

Lemma sortHeaderClick_spec_witness :
  let st := Sample.a_table [Sample.an_enriched 1 300 "REQUEST" "A" "물건발명"]
              "" "ALL" "createdAt" AdminTradesPage.desc in
  AdminTradesPage.sortOrder (AdminTradesPage.sortHeaderClick "price" st) = AdminTradesPage.desc
  ∧ AdminTradesPage.sortHeaderClick "createdAt" (AdminTradesPage.sortHeaderClick "createdAt" st)
    = st.
Proof.
  intros st. split.
  - apply (proj1 (proj2 (sortHeaderClick_spec "price" st))). discriminate.
  - apply (proj1 (proj2 (proj2 (sortHeaderClick_spec "createdAt" st)))). reflexivity.
Defined.

Lemma act_offered_invariant (st : AdminTradesPage.State) (a : AdminTradesView.Action) :
  AdminTradesView.offered a →
  AdminTradesPage.sortBy st ∈ AdminTradesPage.headerKeys →
  AdminTradesPage.statusFilter st ∈ AdminTradesPage.statusOptions →
  (AdminTradesPage.isModalOpen st = true ↔ is_Some (AdminTradesPage.selectedTradeId st)) →
  let st' := AdminTradesView.act st a in
  AdminTradesPage.sortBy st' ∈ AdminTradesPage.headerKeys
  ∧ AdminTradesPage.statusFilter st' ∈ AdminTradesPage.statusOptions
  ∧ (AdminTradesPage.isModalOpen st' = true ↔ is_Some (AdminTradesPage.selectedTradeId st')).
Proof.
  intros Ha Hk Hf Hm. destruct a as [s|s|key|n| |l]; simpl in *; try done.
  all: try (unfold AdminTradesPage.sortHeaderClick;
            destruct (String.eqb (AdminTradesPage.sortBy st) key); simpl; done).
  all: split; [done|]; split; [done|]; split; first [done | by eexists | by intros [? ?]].
Qed.

(** X9. Whatever the user does with the controls the page offers, in whatever
    order, and whenever enrichment results arrive: the sort key is always one
    of the four header keys (the comparator's [id] case and its fallback are
    never used), the status filter is always ALL or one of the four status
    codes, and the modal flag is set exactly when a trade is selected. *)
Theorem page_invariant (l : list AdminTradesView.Action) :
  Forall AdminTradesView.offered l →
  let st := AdminTradesView.run AdminTradesPage.initial l in
  AdminTradesPage.sortBy st ∈ AdminTradesPage.headerKeys
  ∧ AdminTradesPage.statusFilter st ∈ AdminTradesPage.statusOptions
  ∧ (AdminTradesPage.isModalOpen st = true ↔ is_Some (AdminTradesPage.selectedTradeId st)).
Proof.
  unfold AdminTradesView.run.
  assert (H0 : AdminTradesPage.sortBy AdminTradesPage.initial ∈ AdminTradesPage.headerKeys
               ∧ AdminTradesPage.statusFilter AdminTradesPage.initial
                 ∈ AdminTradesPage.statusOptions
               ∧ (AdminTradesPage.isModalOpen AdminTradesPage.initial = true
                  ↔ is_Some (AdminTradesPage.selectedTradeId AdminTradesPage.initial))).
  { split; [|split].
    - unfold AdminTradesPage.headerKeys. simpl. repeat constructor.
    - unfold AdminTradesPage.statusOptions. simpl. repeat constructor.
    - simpl. split; [done | by intros [? ?]]. }
  revert H0. generalize AdminTradesPage.initial.
  induction l as [|a l IH]; intros st H0 Hl; simpl; [done|].
  apply Forall_cons in Hl as [Ha Hl]. apply IH; [|done].
  destruct H0 as (H1 & H2 & H3). by apply act_offered_invariant.
Qed.

Lemma page_invariant_witness :
  let st := AdminTradesView.run AdminTradesPage.initial
              [AdminTradesView.ClickHeader "price"; AdminTradesView.SelectStatus "ACCEPT";
               AdminTradesView.TypeSearch "12"; AdminTradesView.ClickTrade 5;
               AdminTradesView.CloseModal; AdminTradesView.ClickHeader "price"] in
  AdminTradesPage.sortBy st ∈ AdminTradesPage.headerKeys
  ∧ AdminTradesPage.statusFilter st ∈ AdminTradesPage.statusOptions
  ∧ (AdminTradesPage.isModalOpen st = true ↔ is_Some (AdminTradesPage.selectedTradeId st)).
Proof.
  apply page_invariant.
  repeat constructor;
    unfold AdminTradesPage.headerKeys, AdminTradesPage.statusOptions;
    repeat constructor.
Defined.

(** X10. Opening the detail of a row and closing it again leaves the page as
    it was: search term, status filter, sort key, direction and enriched list
    are untouched, and so are the rows shown while the modal is open. *)
Theorem open_close_preserves_view (n : Z) (st : AdminTradesPage.State) :
  AdminTradesPage.selectedTradeId st = None →
  AdminTradesPage.isModalOpen st = false →
  AdminTradesPage.handleModalClose (AdminTradesPage.handleTradeClick n st) = st
  ∧ AdminTradesPage.filteredTrades (AdminTradesPage.handleTradeClick n st)
    = AdminTradesPage.filteredTrades st
  ∧ AdminTradesPage.selectedTradeId (AdminTradesPage.handleTradeClick n st) = Some n.
Proof.
  intros Hs Hm. destruct st; simpl in *. subst. done.
Qed.

Lemma open_close_preserves_view_witness :
  let st := Sample.a_table [Sample.an_enriched 1 300 "REQUEST" "A" "물건발명"]
              "A" "REQUEST" "price" AdminTradesPage.asc in
  AdminTradesPage.handleModalClose (AdminTradesPage.handleTradeClick 1 st) = st.
Proof.
  intros st. apply (proj1 (open_close_preserves_view 1 st eq_refl eq_refl)).
Defined.

Lemma badge_gray (l : string) :
  AdminTradesPage.categoryBadgeClass (Some l) = "bg-gray-100 text-gray-800"
  ↔ l ∉ AdminTradesPage.koreanCategories.
Proof.
  unfold AdminTradesPage.categoryBadgeClass, AdminTradesPage.koreanCategories. simpl.
  repeat case_eqb;
    try (split; [discriminate | intros H; exfalso; apply H; by repeat constructor]).
  all: split; try done; intros _; rewrite list_elem_of_In; simpl; intuition congruence.
Qed.

Lemma getCategoryLabel_code (c : string) :
  c ∈ categoryCodes →
  AdminTradesPage.getCategoryLabel c ∈ AdminTradesPage.koreanCategories.
Proof.
  unfold categoryCodes. rewrite list_elem_of_In. simpl.
  intros [<-|[<-|[<-|[<-|[<-|[<-|[]]]]]]];
    unfold AdminTradesPage.koreanCategories; vm_compute; repeat constructor.
Qed.

(** X11. After enrichment the badge of a row is coloured exactly for the
    categories the page knows: a fetched category gets the gray badge if and
    only if it is neither one of the six backend codes nor one of the six
    localized labels; a backend code gets the colour of its label. *)
Theorem categoryBadge_after_enrichment (c : string) :
  AdminTradesPage.categoryBadgeClass (Some (AdminTradesPage.getCategoryLabel c))
  = "bg-gray-100 text-gray-800"
  ↔ (c ∉ categoryCodes) ∧ (c ∉ AdminTradesPage.koreanCategories).
Proof.
  rewrite badge_gray. split.
  - intros Hl. split.
    + intros Hc. by apply Hl, getCategoryLabel_code.
    + intros Hk. apply Hl. by rewrite getCategoryLabel_label.
  - intros [Hc Hk]. rewrite getCategoryLabel_unknown by done.
    destruct (JS.truthy c); [done|].
    unfold AdminTradesPage.koreanCategories. rewrite list_elem_of_In. simpl.
    intuition discriminate.
Qed.

Lemma getCategoryLabel_nonempty (c : string) :
  c ≠ "" → AdminTradesPage.getCategoryLabel c ≠ "".
Proof.
  intros Hc. destruct (getCategoryLabel_range c) as [Hl | [[-> _] | ->]]; [|done..].
  intros He. rewrite He in Hl. revert Hl.
  unfold AdminTradesPage.koreanCategories. rewrite list_elem_of_In. simpl.
  intuition discriminate.
Qed.

(** X12. Every entry the enrichment builds, whether its request was fulfilled
    or rejected and whatever the response held, keeps the trade's own fields
    and has a title and a non-empty category label; the category cell shows
    that label, the search looks into it, and the title cell is never empty
    (an empty fetched title is shown as "제목 없음"). *)
Theorem withPostInfo_wellformed (t : AdminTradesPage.Trade) (r : Api.DetailResult) :
  let e := AdminTradesPage.withPostInfo t r in
  AdminTradesPage.trade e = t
  ∧ is_Some (AdminTradesPage.postTitle e)
  ∧ AdminTradesPage.titleCell e ≠ ""
  ∧ ∃ label : string,
      AdminTradesPage.postCategory e = Some label
      ∧ label ≠ ""
      ∧ AdminTradesPage.categoryCell e = label
      ∧ ∀ term, AdminTradesPage.field_includes (AdminTradesPage.postCategory e) term
                = JS.includes label term.
Proof.
  assert (Hcell : ∀ o, JS.or_else o "제목 없음" ≠ "").
  { intros [s|]; simpl; [|done]. destruct (JS.truthy s) eqn:E; [|done].
    by apply truthy_true. }
  assert (Hlabel : ∀ l, l ≠ "" →
            JS.or_else (Some l) "카테고리 없음" = l
            ∧ ∀ term, AdminTradesPage.field_includes (Some l) term = JS.includes l term).
  { intros l Hl%truthy_true. simpl. by rewrite Hl. }
  destruct r as [response|err]; simpl.
  - split; [done|]. split; [by eexists|].
    split; [apply Hcell|]. eexists. split; [reflexivity|].
    assert (Hne : (if JS.truthy_opt (Api.data_postCategory response)
                   then AdminTradesPage.getCategoryLabel
                          (JS.nullish (Api.data_postCategory response) "")
                   else "카테고리 없음") ≠ "").
    { destruct (Api.data_postCategory response) as [c|]; simpl; [|done].
      destruct (JS.truthy c) eqn:E; [|done].
      by apply getCategoryLabel_nonempty, truthy_true. }
    split; [done|]. by apply Hlabel.
  - split; [done|]. split; [by eexists|]. split; [done|].
    eexists. split; [reflexivity|]. split; [done|]. by apply Hlabel.
Qed.

(** X13. A status the page recognises is always relabelled and coloured, any
    other status is shown as it came, on the gray badge: in the table and in
    the modal alike, the label equals the status exactly when, and the badge
    is gray exactly when, the status is none of the four codes; labelling
    twice is labelling once. *)
Theorem status_badge_spec (s : string) :
  (AdminTradesPage.getStatusLabel s = s ↔ s ∉ statusCodes)
  ∧ (AdminTradesPage.getStatusColor s = "bg-gray-100 text-gray-800" ↔ s ∉ statusCodes)
  ∧ TradeDetailModal.getStatusLabel s = AdminTradesPage.getStatusLabel s
  ∧ TradeDetailModal.getStatusColor s = AdminTradesPage.getStatusColor s
  ∧ AdminTradesPage.getStatusLabel (AdminTradesPage.getStatusLabel s)
    = AdminTradesPage.getStatusLabel s.
Proof.
  assert (Hin : ∀ x, x ∈ statusCodes
                     ↔ x = "REQUEST" ∨ x = "ACCEPT" ∨ x = "CANCELED" ∨ x = "COMPLETED").
  { intros x. unfold statusCodes. rewrite list_elem_of_In. simpl. intuition. }
  split; [|split; [|split; [done|split; [done|]]]].
  - rewrite Hin. unfold AdminTradesPage.getStatusLabel.
    repeat case_eqb; split; try discriminate; intuition congruence.
  - rewrite Hin. unfold AdminTradesPage.getStatusColor.
    repeat case_eqb; split; try discriminate; intuition congruence.
  - unfold AdminTradesPage.getStatusLabel at 2.
    repeat case_eqb; reflexivity.
Qed.

Section TableBody.

Variable Date_getTime : string → option Z.
Variable str_lt : string → string → bool.


End TableBody.


(** ** The modal: what it shows *)

(** X15. A rejected detail request always ends on the error panel of the open
    modal, with a non-empty message: the backend's message when the payload
    has a non-empty one, the fixed message otherwise.  The spinner is off and
    a trade loaded earlier stays in the state. *)
Theorem fetchTradeDetail_rejected (p : TradeDetailModal.Props) (st : TradeDetailModal.State)
    (e : Api.ApiError) :
  TradeDetailModal.isOpen p = true →
  let st' := TradeDetailModal.fetchTradeDetail_settled (JS.Rejected e) st in
  ∃ msg : string,
    TradeDetailModal.render p st' = TradeDetailModal.ErrorPanel msg
    ∧ msg ≠ ""
    ∧ (∀ m, Api.response_data_message e = Some m → m ≠ "" → msg = m)
    ∧ (Api.response_data_message e = None ∨ Api.response_data_message e = Some "" →
       msg = "거래 상세 정보를 불러오는데 실패했습니다.")
    ∧ TradeDetailModal.isLoading st' = false
    ∧ TradeDetailModal.trade st' = TradeDetailModal.trade st.
Proof.
  intros Hopen. simpl.
  exists (JS.or_else (Api.response_data_message e)
            "거래 상세 정보를 불러오는데 실패했습니다.").
  assert (Hne : JS.or_else (Api.response_data_message e)
                  "거래 상세 정보를 불러오는데 실패했습니다." ≠ "").
  { destruct (Api.response_data_message e) as [m|]; simpl; [|done].
    destruct (JS.truthy m) eqn:E; [by apply truthy_true | done]. }
  split.
  { unfold TradeDetailModal.render. rewrite Hopen. simpl.
    apply truthy_true in Hne. by rewrite Hne. }
  split; [done|]. split; [|split; [|done]].
  - intros m -> Hm%truthy_true. simpl. by rewrite Hm.
  - by intros [-> | ->].
Qed.

Lemma fetchTradeDetail_rejected_witness :
  TradeDetailModal.render
    {| TradeDetailModal.isOpen := true; TradeDetailModal.tradeId := 5 |}
    (TradeDetailModal.fetchTradeDetail_settled (JS.Rejected Sample.no_response)
       TradeDetailModal.initial)
  = TradeDetailModal.ErrorPanel "거래 상세 정보를 불러오는데 실패했습니다.".
Proof.
  destruct (fetchTradeDetail_rejected
              {| TradeDetailModal.isOpen := true; TradeDetailModal.tradeId := 5 |}
              TradeDetailModal.initial Sample.no_response eq_refl)
    as (msg & Hview & _ & _ & Hdefault & _).
  rewrite Hview. f_equal. apply Hdefault. by left.
Defined.

(** X16. The open modal shows the spinner while the loading flag is set,
    whatever else is in its state, and the error panel while an error is set
    and the flag is off, even when a trade is loaded.  A fulfilled request
    stores its trade but does not clear an error left by another request: the
    error panel stays. *)
Theorem modal_view_precedence (p : TradeDetailModal.Props) (st : TradeDetailModal.State) :
  TradeDetailModal.isOpen p = true →
  (TradeDetailModal.isLoading st = true →
   TradeDetailModal.render p st = TradeDetailModal.Spinner)
  ∧ (∀ msg, TradeDetailModal.error st = Some msg → msg ≠ "" →
       (TradeDetailModal.isLoading st = false →
        TradeDetailModal.render p st = TradeDetailModal.ErrorPanel msg)
       ∧ ∀ response,
           let st' := TradeDetailModal.fetchTradeDetail_settled (JS.Fulfilled response) st in
           TradeDetailModal.trade st' = Api.data response
           ∧ TradeDetailModal.render p st' = TradeDetailModal.ErrorPanel msg).
Proof.
  intros Hopen. unfold TradeDetailModal.render. rewrite Hopen. simpl. split.
  - by intros ->.
  - intros msg Herr Hmsg%truthy_true. split.
    + intros ->. rewrite Herr. simpl. by rewrite Hmsg.
    + intros response. simpl. rewrite Herr. simpl. by rewrite Hmsg.
Qed.

Lemma modal_view_precedence_witness :
  let d7 := Sample.a_detail 7 (Some "B") (Some "METHOD") in
  let a := AdminTradesApp.run AdminTradesApp.initial
             [AdminTradesApp.TradeClick 5; AdminTradesApp.TradeClick 7;
              AdminTradesApp.Settle 0 (JS.Rejected Sample.no_response);
              AdminTradesApp.Settle 0 (JS.Fulfilled {| Api.data := Some d7 |})] in
  AdminTradesApp.view a
  = TradeDetailModal.ErrorPanel "거래 상세 정보를 불러오는데 실패했습니다.".
Proof.
  intros d7 a.
  destruct (proj2 (modal_view_precedence
              {| TradeDetailModal.isOpen := true; TradeDetailModal.tradeId := 7 |}
              {| TradeDetailModal.trade := None; TradeDetailModal.isLoading := false;
                 TradeDetailModal.error := Some "거래 상세 정보를 불러오는데 실패했습니다." |}
              eq_refl) _ eq_refl ltac:(discriminate)) as [_ H].
  exact (proj2 (H {| Api.data := Some d7 |})).
Defined.

(** ** The page and its modal *)

Lemma open_closed_modal (a : AdminTradesApp.App) (n : Z) :
  AdminTradesApp.modal a = None → n ≠ 0 →
  AdminTradesApp.step a (AdminTradesApp.TradeClick n)
  = {| AdminTradesApp.page := AdminTradesPage.handleTradeClick n (AdminTradesApp.page a);
       AdminTradesApp.modal :=
         Some {| AdminTradesApp.key := AdminTradesApp.next_key a;
                 AdminTradesApp.props :=
                   {| TradeDetailModal.isOpen := true; TradeDetailModal.tradeId := n |};
                 AdminTradesApp.mstate :=
                   {| TradeDetailModal.trade := None; TradeDetailModal.isLoading := true;
                      TradeDetailModal.error := None |} |};
       AdminTradesApp.next_key := S (AdminTradesApp.next_key a);
       AdminTradesApp.inflight :=
         (AdminTradesApp.inflight a ++ [(AdminTradesApp.next_key a, n)])%list |}.
Proof.
  intros Hm Hn%Z.eqb_neq. simpl.
  unfold AdminTradesApp.rerender, AdminTradesApp.modal_props. simpl. rewrite Hn, Hm.
  unfold TradeDetailModal.after_render, TradeDetailModal.open_effect,
    TradeDetailModal.fetchTradeDetail. simpl. by rewrite Hn.
Qed.

(** X17. Clicking a row while no modal is mounted opens the modal on the
    spinner and issues exactly one detail request, for that row's identifier;
    when that request is fulfilled the modal shows the returned trade, or an
    empty body when the response carries no data, and nothing is left in
    flight from the click. *)
Theorem open_then_fulfilled (a : AdminTradesApp.App) (n : Z) (response : Api.DetailResponse) :
  AdminTradesApp.modal a = None → n ≠ 0 →
  let a1 := AdminTradesApp.step a (AdminTradesApp.TradeClick n) in
  let a2 := AdminTradesApp.step a1
              (AdminTradesApp.Settle (length (AdminTradesApp.inflight a))
                 (JS.Fulfilled response)) in
  AdminTradesApp.view a1 = TradeDetailModal.Spinner
  ∧ AdminTradesApp.requested a1 = Some n
  ∧ AdminTradesApp.inflight a1
    = (AdminTradesApp.inflight a ++ [(AdminTradesApp.next_key a, n)])%list
  ∧ AdminTradesApp.view a2
    = match Api.data response with
      | Some d => TradeDetailModal.Detail d
      | None => TradeDetailModal.Blank
      end
  ∧ AdminTradesApp.inflight a2 = AdminTradesApp.inflight a.
Proof.
  intros Hm Hn a1 a2. subst a2 a1. rewrite open_closed_modal by done.
  split; [done|]. split.
  { unfold AdminTradesApp.requested, AdminTradesApp.modal_props. simpl.
    apply Z.eqb_neq in Hn. by rewrite Hn. }
  split; [done|].
  cbn [AdminTradesApp.step AdminTradesApp.inflight AdminTradesApp.modal].
  rewrite list_lookup_middle by done. cbn. rewrite Nat.eqb_refl. cbn.
  rewrite delete_middle, app_nil_r. split; [|done].
  unfold AdminTradesApp.view. cbn. by destruct (Api.data response).
Qed.

Lemma open_then_fulfilled_witness :
  let d := Sample.a_detail 5 (Some "A") (Some "PRODUCT") in
  AdminTradesApp.view
    (AdminTradesApp.step
       (AdminTradesApp.step AdminTradesApp.initial (AdminTradesApp.TradeClick 5))
       (AdminTradesApp.Settle 0 (JS.Fulfilled {| Api.data := Some d |})))
  = TradeDetailModal.Detail d.
Proof.
  intros d.
  apply (proj1 (proj2 (proj2 (proj2
    (open_then_fulfilled AdminTradesApp.initial 5 {| Api.data := Some d |}
       eq_refl ltac:(discriminate)))))).
Defined.

(** X18. A row whose identifier is 0 cannot be opened: the click records the
    selection and sets the modal flag, but no modal is rendered and no request
    is issued, from any state of the page. *)
Theorem click_on_id_zero (a : AdminTradesApp.App) :
  let a' := AdminTradesApp.step a (AdminTradesApp.TradeClick 0) in
  AdminTradesPage.selectedTradeId (AdminTradesApp.page a') = Some 0
  ∧ AdminTradesPage.isModalOpen (AdminTradesApp.page a') = true
  ∧ AdminTradesApp.modal a' = None
  ∧ AdminTradesApp.view a' = TradeDetailModal.Hidden
  ∧ AdminTradesApp.inflight a' = AdminTradesApp.inflight a.
Proof.
  simpl. unfold AdminTradesApp.rerender, AdminTradesApp.modal_props. simpl.
  by destruct (AdminTradesApp.modal a).
Qed.

(** X19. The retry button of the error panel issues one new request for the
    identifier the modal is open for, clears the error and shows the spinner;
    when that request is fulfilled with a trade, the modal shows it.  Without
    the error panel there is nothing to click: the event changes nothing. *)
Theorem retry_from_error (a : AdminTradesApp.App) (m : AdminTradesApp.Mounted) :
  AdminTradesApp.modal a = Some m →
  TradeDetailModal.tradeId (AdminTradesApp.props m) ≠ 0 →
  let a1 := AdminTradesApp.step a AdminTradesApp.RetryClick in
  ((∀ msg, AdminTradesApp.view a ≠ TradeDetailModal.ErrorPanel msg) → a1 = a)
  ∧ ∀ msg, AdminTradesApp.view a = TradeDetailModal.ErrorPanel msg →
      AdminTradesApp.view a1 = TradeDetailModal.Spinner
      ∧ AdminTradesApp.inflight a1
        = (AdminTradesApp.inflight a
           ++ [(AdminTradesApp.key m, TradeDetailModal.tradeId (AdminTradesApp.props m))])%list
      ∧ ∀ d : Api.TradeDetail,
          AdminTradesApp.view
            (AdminTradesApp.step a1
               (AdminTradesApp.Settle (length (AdminTradesApp.inflight a))
                  (JS.Fulfilled {| Api.data := Some d |})))
          = TradeDetailModal.Detail d.
Proof.
  intros Hm Hid%Z.eqb_neq a1. subst a1. unfold AdminTradesApp.view. rewrite Hm.
  cbn [AdminTradesApp.step]. rewrite Hm. split.
  - intros Hview.
    destruct (TradeDetailModal.render (AdminTradesApp.props m) (AdminTradesApp.mstate m))
      as [| |msg| |] eqn:E; try done.
    by destruct (Hview msg).
  - intros msg Hview. rewrite Hview.
    unfold TradeDetailModal.fetchTradeDetail. rewrite Hid. cbn.
    assert (Hopen : TradeDetailModal.isOpen (AdminTradesApp.props m) = true).
    { unfold TradeDetailModal.render in Hview.
      by destruct (TradeDetailModal.isOpen (AdminTradesApp.props m)). }
    unfold TradeDetailModal.render. cbn. rewrite Hopen. cbn.
    split; [done|]. split; [done|]. intros d.
    rewrite list_lookup_middle by done. cbn. rewrite Nat.eqb_refl. cbn.
    by rewrite Hopen.
Qed.

Lemma retry_from_error_witness :
  let d := Sample.a_detail 5 (Some "A") (Some "PRODUCT") in
  let a := AdminTradesApp.run AdminTradesApp.initial
             [AdminTradesApp.TradeClick 5;
              AdminTradesApp.Settle 0 (JS.Rejected Sample.no_response)] in
  AdminTradesApp.view
    (AdminTradesApp.run a
       [AdminTradesApp.RetryClick;
        AdminTradesApp.Settle 0 (JS.Fulfilled {| Api.data := Some d |})])
  = TradeDetailModal.Detail d.
Proof.
  intros d a.
  destruct (retry_from_error a
              {| AdminTradesApp.key := 0%nat;
                 AdminTradesApp.props :=
                   {| TradeDetailModal.isOpen := true; TradeDetailModal.tradeId := 5 |};
                 AdminTradesApp.mstate :=
                   {| TradeDetailModal.trade := None; TradeDetailModal.isLoading := false;
                      TradeDetailModal.error :=
                        Some "거래 상세 정보를 불러오는데 실패했습니다." |} |}
              eq_refl ltac:(discriminate)) as [_ H].
  destruct (H "거래 상세 정보를 불러오는데 실패했습니다." eq_refl) as (_ & _ & Hd).
  exact (Hd d).
Defined.

(** ** Registration: from the inputs to the request and back *)

Lemma or_message_nonempty (o : option string) (d : string) :
  d ≠ "" →
  (if JS.truthy_opt o then JS.nullish o "" else d) ≠ "".
Proof.
  intros Hd. destruct o as [m|]; simpl; [|done].
  destruct (JS.truthy m) eqn:E; [by apply truthy_true | done].
Qed.

(** X20. Whatever the page state was before (for instance after a failed
    attempt), once the user has typed a name, an e-mail address, the same
    password twice and ticked the agreement box, [handleSubmit] issues the
    signup request to /api/auth/signup with exactly the typed name, e-mail
    address and password, with the loading flag set and the old error
    cleared. *)
Theorem register_typed_values_reach_request (st : RegisterPage.State) (n e p : string) :
  let typed :=
    foldl (λ s ev, RegisterPage.handleInputChange ev s) st
      [ {| RegisterPage.target := RegisterPage.input_name;
           RegisterPage.value := n; RegisterPage.checked := false |};
        {| RegisterPage.target := RegisterPage.input_email;
           RegisterPage.value := e; RegisterPage.checked := false |};
        {| RegisterPage.target := RegisterPage.input_password;
           RegisterPage.value := p; RegisterPage.checked := false |};
        {| RegisterPage.target := RegisterPage.input_confirmPassword;
           RegisterPage.value := p; RegisterPage.checked := false |};
        {| RegisterPage.target := RegisterPage.input_agree;
           RegisterPage.value := "on"; RegisterPage.checked := true |} ] in
  RegisterPage.handleSubmit typed
  = RegisterPage.AwaitPost "/api/auth/signup"
      {| RegisterPage.body_name := n; RegisterPage.body_email := e;
         RegisterPage.body_password := p |}
      {| RegisterPage.formData :=
           {| RegisterPage.name := n; RegisterPage.email := e;
              RegisterPage.password := p; RegisterPage.confirmPassword := p;
              RegisterPage.agree := true |};
         RegisterPage.isLoading := true; RegisterPage.error := "" |}.
Proof.
  simpl. unfold RegisterPage.handleSubmit. simpl. by rewrite String.eqb_refl.
Qed.

(** X21. When the signup request settles the loading flag is cleared and the
    form keeps what was typed.  A fulfilled request navigates to
    /register/success and sets no error.  A rejected request never
    navigates and always leaves a non-empty error: the backend's message when
    the payload has a non-empty one, the connection-failure message
    otherwise. *)
Theorem register_settled_spec (st : RegisterPage.State) :
  (let '(st', fx) := RegisterPage.handleSubmit_settled (JS.Fulfilled ()) st in
   fx = [RegisterPage.RouterPush "/register/success"]
   ∧ RegisterPage.error st' = RegisterPage.error st
   ∧ RegisterPage.isLoading st' = false
   ∧ RegisterPage.formData st' = RegisterPage.formData st)
  ∧ ∀ e : Api.ApiError,
      let '(st', fx) := RegisterPage.handleSubmit_settled (JS.Rejected e) st in
      fx = []
      ∧ RegisterPage.error st' ≠ ""
      ∧ (∀ m, Api.response_data_message e = Some m → m ≠ "" → RegisterPage.error st' = m)
      ∧ (Api.response_data_message e = None ∨ Api.response_data_message e = Some "" →
         RegisterPage.error st' = "서버 연결에 실패했습니다. 다시 시도해주세요.")
      ∧ RegisterPage.isLoading st' = false
      ∧ RegisterPage.formData st' = RegisterPage.formData st.
Proof.
  split; [done|]. intros e. simpl.
  destruct (Api.response_data_message e) as [m|] eqn:Hm; simpl.
  - destruct (JS.truthy m) eqn:Ht; simpl.
    + apply truthy_true in Ht. repeat split; try done.
      * by intros ? [= <-] _.
      * intros [H|[= ->]]; done.
    + apply truthy_false in Ht as ->. repeat split; try done.
      by intros ? [= <-] ?.
  - repeat split; try done.
Qed.

(** ** Login: the settled request *)

(** X22. A fulfilled login that carries the member navigates exactly once,
    after handing the member to the auth context: to /admin/members when the
    member's role is ADMIN and to / for any other or missing role (stored as
    USER).  The redirect effect of the page, run for the stored user, picks
    the same route. *)
Theorem login_fulfilled_with_member (st : LoginPage.State) (response : LoginPage.LoginResponse)
    (d : LoginPage.LoginData) (m : LoginPage.MemberInfo) :
  LoginPage.response_data_data response = Some d →
  LoginPage.memberInfo d = Some m →
  ∃ (u : LoginPage.User) (route : string),
    (LoginPage.handleSubmit_settled (JS.Fulfilled response) st).2
    = [LoginPage.Login u (LoginPage.accessToken d) (LoginPage.refreshToken d);
       LoginPage.RouterPush route]
    ∧ LoginPage.user_id u = JS.Number_toString (LoginPage.member_id m)
    ∧ LoginPage.user_email u = LoginPage.member_email m
    ∧ (LoginPage.member_role m = Some "ADMIN" →
       LoginPage.user_role u = "ADMIN" ∧ route = "/admin/members")
    ∧ (LoginPage.member_role m ≠ Some "ADMIN" →
       LoginPage.user_role u ≠ "ADMIN" ∧ route = "/")
    ∧ (LoginPage.member_role m = None ∨ LoginPage.member_role m = Some "" →
       LoginPage.user_role u = "USER")
    ∧ LoginPage.redirect_effect false true (Some (LoginPage.user_role u))
      = [LoginPage.RouterPush route]
    ∧ LoginPage.isLoading (LoginPage.handleSubmit_settled (JS.Fulfilled response) st).1 = false.
Proof.
  intros Hd Hm. simpl. rewrite Hd, Hm. simpl.
  set (role := JS.or_else (LoginPage.member_role m) "USER").
  assert (Hrole : role = "ADMIN" ↔ LoginPage.member_role m = Some "ADMIN").
  { subst role. destruct (LoginPage.member_role m) as [r|]; simpl.
    - destruct (JS.truthy r) eqn:E.
      + split; congruence.
      + apply truthy_false in E as ->. split; discriminate.
    - split; discriminate. }
  fold role. unfold LoginPage.redirect_effect. simpl.
  destruct (String.eqb_spec role "ADMIN") as [He|Hne].
  - eexists _, _. split; [reflexivity|]. simpl. fold role.
    split; [done|]. split; [done|]. split; [done|].
    split; [intros H; by apply Hrole in He|].
    split; [apply Hrole in He; intros [H|H]; congruence|].
    by rewrite He.
  - eexists _, _. split; [reflexivity|]. simpl. fold role.
    split; [done|]. split; [done|]. split; [intros H%Hrole; done|].
    split; [done|].
    split; [subst role; by intros [-> | ->]|].
    rewrite bool_decide_eq_false_2; [done | congruence].
Qed.

Lemma login_fulfilled_with_member_witness :
  let m := {| LoginPage.member_id := 7; LoginPage.member_email := "kim@example.com";
              LoginPage.member_name := "kim"; LoginPage.member_profileUrl := None;
              LoginPage.member_role := Some "ADMIN" |} in
  let d := {| LoginPage.accessToken := Some "a"; LoginPage.refreshToken := Some "r";
              LoginPage.memberInfo := Some m |} in
  ∃ u : LoginPage.User,
    (LoginPage.handleSubmit_settled
       (JS.Fulfilled {| LoginPage.response_data_data := Some d |})
       {| LoginPage.formData := {| LoginPage.email := "kim@example.com";
                                   LoginPage.password := "abc123" |};
          LoginPage.isLoading := true; LoginPage.error := "" |}).2
    = [LoginPage.Login u (Some "a") (Some "r"); LoginPage.RouterPush "/admin/members"].
Proof.
  intros m d.
  destruct (login_fulfilled_with_member
              {| LoginPage.formData := {| LoginPage.email := "kim@example.com";
                                          LoginPage.password := "abc123" |};
                 LoginPage.isLoading := true; LoginPage.error := "" |}
              {| LoginPage.response_data_data := Some d |} d m eq_refl eq_refl)
    as (u & route & Hfx & _ & _ & Hadmin & _).
  exists u. rewrite Hfx. destruct (Hadmin eq_refl) as [_ ->]. reflexivity.
Defined.

(** X23. A fulfilled login without the member still navigates, to /, without
    handing anything to the auth context; a fulfilled login without data
    navigates nowhere and shows the invalid-response message.  The loading
    flag is cleared either way. *)
Theorem login_fulfilled_incomplete (st : LoginPage.State) (response : LoginPage.LoginResponse) :
  (∀ d, LoginPage.response_data_data response = Some d → LoginPage.memberInfo d = None →
        LoginPage.handleSubmit_settled (JS.Fulfilled response) st
        = (LoginPage.setIsLoading false st, [LoginPage.RouterPush "/"]))
  ∧ (LoginPage.response_data_data response = None →
     LoginPage.handleSubmit_settled (JS.Fulfilled response) st
     = ({| LoginPage.formData := LoginPage.formData st; LoginPage.isLoading := false;
           LoginPage.error := "로그인 응답 데이터가 올바르지 않습니다." |}, [])).
Proof.
  split.
  - intros d Hd Hm. simpl. by rewrite Hd, Hm.
  - intros Hd. simpl. by rewrite Hd.
Qed.

Lemma login_fulfilled_incomplete_witness :
  (LoginPage.handleSubmit_settled
     (JS.Fulfilled {| LoginPage.response_data_data :=
                        Some {| LoginPage.accessToken := Some "a";
                                LoginPage.refreshToken := None;
                                LoginPage.memberInfo := None |} |})
     {| LoginPage.formData := {| LoginPage.email := "kim@example.com";
                                 LoginPage.password := "abc123" |};
        LoginPage.isLoading := true; LoginPage.error := "" |}).2
  = [LoginPage.RouterPush "/"].
Proof.
  exact (f_equal snd
           (proj1 (login_fulfilled_incomplete
                     {| LoginPage.formData := {| LoginPage.email := "kim@example.com";
                                                 LoginPage.password := "abc123" |};
                        LoginPage.isLoading := true; LoginPage.error := "" |}
                     {| LoginPage.response_data_data :=
                          Some {| LoginPage.accessToken := Some "a";
                                  LoginPage.refreshToken := None;
                                  LoginPage.memberInfo := None |} |})
                  _ eq_refl eq_refl)).
Defined.

(** X24. A rejected login never navigates and always shows a non-empty
    message.  A non-empty message of the payload is shown as it is, whatever
    the status code.  Without one, and with no response or a status other than
    400, 401, 403 and 500, the message is the connection-failure message when
    the error carries the request and the generic login-failure message when
    it does not. *)
Theorem login_rejected_spec (st : LoginPage.State) (e : Api.ApiError) :
  let '(st', fx) := LoginPage.handleSubmit_settled (JS.Rejected e) st in
  fx = []
  ∧ LoginPage.error st' = LoginPage.catch_message e
  ∧ LoginPage.catch_message e ≠ ""
  ∧ (∀ m, Api.response_data_message e = Some m → m ≠ "" → LoginPage.catch_message e = m)
  ∧ (Api.response_data_message e = None →
     Api.response_status e ∉ [Some 401; Some 400; Some 403; Some 500] →
     LoginPage.catch_message e
     = if Api.err_request e
       then "서버 연결에 실패했습니다. 네트워크 연결을 확인해주세요."
       else "로그인 중 오류가 발생했습니다. 다시 시도해주세요.").
Proof.
  simpl. split; [done|]. split; [done|]. split; [|split].
  - unfold LoginPage.catch_message.
    destruct (Api.response_data_message e) as [m|]; simpl.
    + destruct (JS.truthy m) eqn:E; [by apply truthy_true|].
      repeat case_bool_decide; try done; by destruct (Api.err_request e).
    + repeat case_bool_decide; try done; by destruct (Api.err_request e).
  - intros m Hm Hne%truthy_true. unfold LoginPage.catch_message. rewrite Hm. simpl.
    by rewrite Hne.
  - intros Hm Hs. unfold LoginPage.catch_message. rewrite Hm. simpl.
    rewrite !bool_decide_eq_false_2; [done|..];
      intros H; apply Hs; rewrite H; repeat constructor.
Qed.

Lemma login_rejected_spec_witness :
  LoginPage.catch_message Sample.no_response
  = "서버 연결에 실패했습니다. 네트워크 연결을 확인해주세요.".
Proof.
  pose proof (login_rejected_spec
                {| LoginPage.formData := {| LoginPage.email := ""; LoginPage.password := "" |};
                   LoginPage.isLoading := true; LoginPage.error := "" |}
                Sample.no_response) as H.
  simpl in H. destruct H as (_ & _ & _ & _ & H).
  apply H; [reflexivity|]. rewrite list_elem_of_In. simpl. intuition discriminate.
Defined.

Lemma register_settled_spec_witness :
  RegisterPage.error
    (RegisterPage.handleSubmit_settled
       (JS.Rejected (Sample.status_only 500 None)) RegisterPage.initial).1
  = "서버 연결에 실패했습니다. 다시 시도해주세요.".
Proof.
  pose proof (proj2 (register_settled_spec RegisterPage.initial)
                (Sample.status_only 500 None)) as H.
  simpl in H. destruct H as (_ & _ & _ & H & _). apply H. by left.
Defined.

(** ** Login: the password reset *)

Section PasswordReset.

Variable trim : string → string.

(** X25. The first step of the password reset asks the backend only when both
    the name and the e-mail address are non-blank after trimming: otherwise it
    shows the fill-in message and changes nothing else, and no request is
    issued.  The verification request carries the trimmed name and e-mail
    address; while it runs the loading flag is set and the old error is
    cleared. *)
Theorem handleNextStep_spec (rs : LoginPage.ResetState) :
  let d := LoginPage.passwordResetData rs in
  (trim (LoginPage.reset_name d) = "" ∨ trim (LoginPage.reset_email d) = "" →
   LoginPage.handleNextStep trim rs
   = LoginPage.NextReturned
       (LoginPage.setPasswordResetError "이름과 이메일을 모두 입력해주세요." rs))
  ∧ (trim (LoginPage.reset_name d) ≠ "" → trim (LoginPage.reset_email d) ≠ "" →
     LoginPage.handleNextStep trim rs
     = LoginPage.AwaitVerify
         {| LoginPage.verify_name := trim (LoginPage.reset_name d);
            LoginPage.verify_email := trim (LoginPage.reset_email d) |}
         {| LoginPage.showPasswordReset := LoginPage.showPasswordReset rs;
            LoginPage.passwordResetStep := LoginPage.passwordResetStep rs;
            LoginPage.passwordResetData := d;
            LoginPage.passwordResetLoading := true;
            LoginPage.passwordResetError := "";
            LoginPage.passwordResetSuccess := LoginPage.passwordResetSuccess rs |}).
Proof.
  intros d. subst d. unfold LoginPage.handleNextStep. split.
  - intros [H|H]; rewrite H; simpl; [done|]. by rewrite orb_true_r.
  - intros Hn%truthy_true He%truthy_true. by rewrite Hn, He.
Qed.

End PasswordReset.

Lemma handleNextStep_spec_witness :
  LoginPage.handleNextStep Sample.trim_ascii (Sample.reset_typed " kim " "kim@example.com")
  = LoginPage.AwaitVerify
      {| LoginPage.verify_name := "kim"; LoginPage.verify_email := "kim@example.com" |}
      {| LoginPage.showPasswordReset := true; LoginPage.passwordResetStep := 1;
         LoginPage.passwordResetData :=
           {| LoginPage.reset_name := " kim "; LoginPage.reset_email := "kim@example.com";
              LoginPage.newPassword := ""; LoginPage.confirmPassword := "" |};
         LoginPage.passwordResetLoading := true;
         LoginPage.passwordResetError := ""; LoginPage.passwordResetSuccess := "" |}
  ∧ LoginPage.handleNextStep Sample.trim_ascii (Sample.reset_typed "   " "kim@example.com")
    = LoginPage.NextReturned
        (LoginPage.setPasswordResetError "이름과 이메일을 모두 입력해주세요."
           (Sample.reset_typed "   " "kim@example.com")).
Proof.
  split.
  - apply (proj2 (handleNextStep_spec Sample.trim_ascii
                    (Sample.reset_typed " kim " "kim@example.com"))); discriminate.
  - apply (proj1 (handleNextStep_spec Sample.trim_ascii
                    (Sample.reset_typed "   " "kim@example.com"))). by left.
Defined.

(** X26. However the verification race ends, the loading flag is cleared and
    what the user typed is kept.  The flow moves to the second step exactly
    when the verification is fulfilled before the five-second timer; in every
    other case the step stays and a non-empty error is shown.  When the timer
    wins it is the delay message.  When the verification is rejected first,
    the message is chosen from the rejection alone: the delay message again
    if the rejection carries the text of the timer's error as its own
    message; else the backend's message when the payload has a non-empty one;
    else, the payload message being absent or empty, the account-not-found
    message for status 404 and the no-matching-member message for anything
    else. *)
Theorem handleNextStep_settled_spec (w : LoginPage.RaceWinner) (rs : LoginPage.ResetState) :
  let rs' := LoginPage.handleNextStep_settled w rs in
  LoginPage.passwordResetLoading rs' = false
  ∧ LoginPage.passwordResetData rs' = LoginPage.passwordResetData rs
  ∧ LoginPage.showPasswordReset rs' = LoginPage.showPasswordReset rs
  ∧ (LoginPage.passwordResetStep rs ≠ 2 →
     (LoginPage.passwordResetStep rs' = 2 ↔ w = LoginPage.VerifyFirst (JS.Fulfilled ())))
  ∧ (w ≠ LoginPage.VerifyFirst (JS.Fulfilled ()) →
     LoginPage.passwordResetStep rs' = LoginPage.passwordResetStep rs
     ∧ LoginPage.passwordResetError rs' ≠ "")
  ∧ (w = LoginPage.TimerFirst →
     LoginPage.passwordResetError rs'
     = "서버 응답이 지연되고 있습니다. 잠시 후 다시 시도해주세요.")
  ∧ (∀ e, w = LoginPage.VerifyFirst (JS.Rejected e) →
          (Api.err_message e = Some "요청 시간이 초과되었습니다." →
           LoginPage.passwordResetError rs'
           = "서버 응답이 지연되고 있습니다. 잠시 후 다시 시도해주세요.")
          ∧ (Api.err_message e ≠ Some "요청 시간이 초과되었습니다." →
             (∀ m, Api.response_data_message e = Some m → m ≠ "" →
                   LoginPage.passwordResetError rs' = m)
             ∧ (Api.response_data_message e = None
                ∨ Api.response_data_message e = Some "" →
                (Api.response_status e = Some 404 →
                 LoginPage.passwordResetError rs'
                 = "입력하신 이름과 이메일로 등록된 계정을 찾을 수 없습니다. 회원가입을 먼저 진행해주세요.")
                ∧ (Api.response_status e ≠ Some 404 →
                   LoginPage.passwordResetError rs'
                   = "해당 정보와 일치하는 회원이 없습니다.")))).
Proof.
  assert (Hne : ∀ e, LoginPage.nextStep_catch_message e ≠ "").
  { intros e. unfold LoginPage.nextStep_catch_message.
    case_bool_decide; [done|].
    destruct (Api.response_data_message e) as [m|]; simpl.
    - destruct (JS.truthy m) eqn:E; [by apply truthy_true|]. by case_bool_decide.
    - by case_bool_decide. }
  cbv zeta. destruct w as [[[]|e]|]; simpl.
  - split; [done|]. split; [done|]. split; [done|]. split; [done|].
    split; [done|]. split; [discriminate | discriminate].
  - split; [done|]. split; [done|]. split; [done|]. split.
    { intros H. split; [done | discriminate]. }
    split; [intros _; split; [done | apply Hne]|]. split; [discriminate|].
    intros e' [= <-]. unfold LoginPage.nextStep_catch_message. split.
    + intros Hmsg. by rewrite bool_decide_eq_true_2.
    + intros Hmsg. rewrite bool_decide_eq_false_2 by done. split.
      * intros m -> Hm%truthy_true. simpl. by rewrite Hm.
      * intros [-> | ->]; simpl; (split; intros Hs;
          [by rewrite bool_decide_eq_true_2 | by rewrite bool_decide_eq_false_2]).
  - split; [done|]. split; [done|]. split; [done|]. split.
    { intros H. split; [done | discriminate]. }
    split; [intros _; split; [done | apply Hne]|]. split; [done | discriminate].
Qed.

Lemma handleNextStep_settled_spec_witness :
  LoginPage.passwordResetError
    (LoginPage.handleNextStep_settled LoginPage.TimerFirst
       (Sample.reset_typed "kim" "kim@example.com"))
  = "서버 응답이 지연되고 있습니다. 잠시 후 다시 시도해주세요."
  ∧ LoginPage.passwordResetStep
      (LoginPage.handleNextStep_settled (LoginPage.VerifyFirst (JS.Fulfilled ()))
         (Sample.reset_typed "kim" "kim@example.com"))
    = 2
  ∧ LoginPage.passwordResetError
      (LoginPage.handleNextStep_settled
         (LoginPage.VerifyFirst (JS.Rejected LoginPage.timeoutError))
         (Sample.reset_typed "kim" "kim@example.com"))
    = "서버 응답이 지연되고 있습니다. 잠시 후 다시 시도해주세요."
  ∧ LoginPage.passwordResetError
      (LoginPage.handleNextStep_settled
         (LoginPage.VerifyFirst (JS.Rejected (Sample.status_only 404 None)))
         (Sample.reset_typed "kim" "kim@example.com"))
    = "입력하신 이름과 이메일로 등록된 계정을 찾을 수 없습니다. 회원가입을 먼저 진행해주세요."
  ∧ LoginPage.passwordResetError
      (LoginPage.handleNextStep_settled
         (LoginPage.VerifyFirst (JS.Rejected (Sample.empty_message 400)))
         (Sample.reset_typed "kim" "kim@example.com"))
    = "해당 정보와 일치하는 회원이 없습니다.".
Proof.
  split; [|split; [|split; [|split]]].
  - apply (handleNextStep_settled_spec LoginPage.TimerFirst
             (Sample.reset_typed "kim" "kim@example.com")). reflexivity.
  - apply (handleNextStep_settled_spec (LoginPage.VerifyFirst (JS.Fulfilled ()))
             (Sample.reset_typed "kim" "kim@example.com")); [discriminate | reflexivity].
  - destruct (handleNextStep_settled_spec
                (LoginPage.VerifyFirst (JS.Rejected LoginPage.timeoutError))
                (Sample.reset_typed "kim" "kim@example.com"))
      as (_ & _ & _ & _ & _ & _ & H).
    destruct (H LoginPage.timeoutError eq_refl) as [H1 _]. apply H1. reflexivity.
  - destruct (handleNextStep_settled_spec
                (LoginPage.VerifyFirst (JS.Rejected (Sample.status_only 404 None)))
                (Sample.reset_typed "kim" "kim@example.com"))
      as (_ & _ & _ & _ & _ & _ & H).
    destruct (H (Sample.status_only 404 None) eq_refl) as [_ H2].
    destruct (H2 ltac:(discriminate)) as [_ H3].
    destruct (H3 (or_introl eq_refl)) as [H4 _]. apply H4. reflexivity.
  - destruct (handleNextStep_settled_spec
                (LoginPage.VerifyFirst (JS.Rejected (Sample.empty_message 400)))
                (Sample.reset_typed "kim" "kim@example.com"))
      as (_ & _ & _ & _ & _ & _ & H).
    destruct (H (Sample.empty_message 400) eq_refl) as [_ H2].
    destruct (H2 ltac:(discriminate)) as [_ H3].
    destruct (H3 (or_intror eq_refl)) as [_ H4]. apply H4. discriminate.
Defined.



Section PasswordResetFlow.

Variable trim : string → string.

(** X28. The whole password reset, from the page's initial state: the user
    opens the reset, types a name and an e-mail address that are not blank,
    the verification is fulfilled in time, the user types the same new
    password twice and the update is fulfilled.  The verification request
    carries the trimmed name and e-mail address, the update request carries
    them as typed, the card ends on the completion panel with all four fields
    emptied, and going back to the login form restores the initial state. *)
Theorem password_reset_flow (n e p : string) :
  trim n ≠ "" → trim e ≠ "" →
  let rs1 :=
    LoginPage.handlePasswordResetInputChange LoginPage.input_email e
      (LoginPage.handlePasswordResetInputChange LoginPage.input_name n
         (LoginPage.setShowPasswordReset true LoginPage.resetInitial)) in
  ∃ rs2 rs5 : LoginPage.ResetState,
    LoginPage.panel rs1 = LoginPage.ResetStep1
    ∧ LoginPage.handleNextStep trim rs1
      = LoginPage.AwaitVerify
          {| LoginPage.verify_name := trim n; LoginPage.verify_email := trim e |} rs2
    ∧ let rs3 := LoginPage.handleNextStep_settled
                   (LoginPage.VerifyFirst (JS.Fulfilled ())) rs2 in
      let rs4 :=
        LoginPage.handlePasswordResetInputChange LoginPage.input_confirmPassword p
          (LoginPage.handlePasswordResetInputChange LoginPage.input_newPassword p rs3) in
      LoginPage.panel rs3 = LoginPage.ResetStep2
      ∧ LoginPage.handlePasswordReset rs4
        = LoginPage.AwaitUpdate
            {| LoginPage.reset_name := n; LoginPage.reset_email := e;
               LoginPage.newPassword := p; LoginPage.confirmPassword := p |} rs5
      ∧ let rs6 := LoginPage.handlePasswordReset_settled (JS.Fulfilled ()) rs5 in
        LoginPage.panel rs6 = LoginPage.ResetDone "비밀번호가 성공적으로 변경되었습니다."
        ∧ LoginPage.passwordResetData rs6 = LoginPage.emptyResetData
        ∧ LoginPage.handleBackToLogin rs6 = LoginPage.resetInitial.
Proof.
  intros Hn%truthy_true He%truthy_true. cbv zeta.
  eexists _, _. split; [reflexivity|]. split.
  { unfold LoginPage.handleNextStep. simpl. rewrite Hn, He. simpl. reflexivity. }
  simpl. split; [reflexivity|]. split.
  { unfold LoginPage.handlePasswordReset. simpl. rewrite String.eqb_refl. simpl.
    reflexivity. }
  simpl. repeat split.
Qed.

End PasswordResetFlow.

Lemma password_reset_flow_witness :
  ∃ rs2 : LoginPage.ResetState,
    LoginPage.handleNextStep Sample.trim_ascii
      (LoginPage.handlePasswordResetInputChange LoginPage.input_email "kim@example.com "
         (LoginPage.handlePasswordResetInputChange LoginPage.input_name " kim"
            (LoginPage.setShowPasswordReset true LoginPage.resetInitial)))
    = LoginPage.AwaitVerify
        {| LoginPage.verify_name := "kim"; LoginPage.verify_email := "kim@example.com" |} rs2.
Proof.
  destruct (password_reset_flow Sample.trim_ascii " kim" "kim@example.com " "abc123")
    as (rs2 & rs5 & _ & H & _); [discriminate | discriminate |].
  exists rs2. exact H.
Defined.

(** ** The build configuration *)




(** ** Enrichment: all or nothing *)

(** X30. The enrichment replaces the list shown in one step: while the
    request of some trade has not settled nothing is stored, and once every
    request has settled - in any order, fulfilled or rejected - the stored list
    has one entry per trade, in input order, each built from its own request,
    and no other cell of the page changes.  For an empty trade list the effect
    stores the empty list without issuing a request. *)
Theorem enrichment_all_or_nothing (getTradeDetail : nat → Z → Api.DetailResult)
    (settle_order : list nat) (trades : list AdminTradesPage.Trade)
    (st : AdminTradesPage.State) :
  (AdminTradesPage.fetchPostInfoForTrades getTradeDetail settle_order trades st = None
   ↔ ∃ i, (i < length trades)%nat ∧ i ∉ settle_order)
  ∧ (∀ st', AdminTradesPage.fetchPostInfoForTrades getTradeDetail settle_order trades st
            = Some st' →
       st' = AdminTradesPage.setTradesWithPostInfo
               (Described.enriched_list getTradeDetail trades) st
       ∧ map AdminTradesPage.trade (AdminTradesPage.tradesWithPostInfo st') = trades)
  ∧ AdminTradesPage.trades_effect getTradeDetail settle_order [] st
    = Some (AdminTradesPage.setTradesWithPostInfo [] st).
Proof.
  assert (Hdec : (∀ i, (i < length trades)%nat → i ∈ settle_order)
                 ∨ ∃ i, (i < length trades)%nat ∧ i ∉ settle_order).
  { destruct (decide (Forall (λ i, i ∈ settle_order) (seq 0 (length trades)))) as [H|H].
    - left. intros i Hi. rewrite Forall_forall in H. apply H, elem_of_seq. lia.
    - right. apply not_Forall_Exists in H; [|apply _].
      apply Exists_exists in H as (i & Hi & Hnot). apply elem_of_seq in Hi.
      exists i. split; [lia | done]. }
  split; [|split; [|done]].
  - split.
    + intros Hnone. destruct Hdec as [Hall|?]; [|done].
      by rewrite (fetchPostInfoForTrades_settled getTradeDetail _ _ _ Hall) in Hnone.
    + intros (i & Hi & Hnot). by eapply fetchPostInfoForTrades_pending.
  - intros st' Hsome. destruct Hdec as [Hall|(i & Hi & Hnot)].
    + rewrite (fetchPostInfoForTrades_settled getTradeDetail _ _ _ Hall) in Hsome.
      injection Hsome as <-. split; [done|]. simpl.
      unfold Described.enriched_list. apply list_eq. intros i.
      rewrite list_lookup_fmap, list_lookup_imap.
      destruct (trades !! i) as [t|]; [|done]. simpl.
      by destruct (getTradeDetail i (AdminTradesPage.id t)).
    + by rewrite (fetchPostInfoForTrades_pending getTradeDetail _ _ _ i Hi Hnot) in Hsome.
Qed.

Lemma enrichment_all_or_nothing_witness :
  let trades := [Sample.a_trade 11 300 "REQUEST"; Sample.a_trade 12 100 "ACCEPT"] in
  AdminTradesPage.fetchPostInfoForTrades (Sample.failing_at 0 "A" "PRODUCT") [1%nat]
    trades AdminTradesPage.initial = None
  ∧ ∃ st', AdminTradesPage.fetchPostInfoForTrades (Sample.failing_at 0 "A" "PRODUCT")
             [1%nat; 0%nat] trades AdminTradesPage.initial = Some st'
           ∧ map AdminTradesPage.trade (AdminTradesPage.tradesWithPostInfo st') = trades.
Proof.
  intros trades. split.
  - apply (proj1 (enrichment_all_or_nothing (Sample.failing_at 0 "A" "PRODUCT") [1%nat]
                    trades AdminTradesPage.initial)).
    exists 0%nat. split; [simpl; lia|]. rewrite list_elem_of_In. simpl. intuition discriminate.
  - eexists. split; [reflexivity|].
    apply (proj1 (proj2 (enrichment_all_or_nothing (Sample.failing_at 0 "A" "PRODUCT")
                           [1%nat; 0%nat] trades AdminTradesPage.initial)) _ eq_refl).
Defined.
